(** * gsql: batch accumulation and execution loop of [gsql/gsql.go]

    A shallow embedding of the line-to-batch state machine ([processLine],
    [fileBatchReader.ReadBatch], [readLineBatchReader.ReadBatch]) and of the
    execution loop of [main], with the properties of the specification
    stated and settled against it.

    Go strings are modelled as [string] (sequences of bytes); all the
    examples are ASCII, where bytes and runes coincide. *)

From Stdlib Require Import String Ascii List Bool Arith ZArith Lia.
From Stdlib Require Import DecimalString.
Import ListNotations.
Open Scope string_scope.
Open Scope list_scope.
Open Scope nat_scope.

(** Go's [+] on strings. *)
Infix "+++" := String.append (right associativity, at level 60).

(** ** The fragment of Go's [regexp] used by the terminator *)

Module Regexp.

(** Abstract syntax of the supported fragment of the RE2 syntax: literals,
    [.], [^], [$], grouping, alternation and the greedy repetitions. *)
Inductive regex : Type :=
| Eps
| Chr (c : ascii)
| Any
| Bol
| Eol
| Cat (r1 r2 : regex)
| Alt (r1 r2 : regex)
| Star (r : regex)
| Plus (r : regex)
| Quest (r : regex)
| Group (r : regex).

(** *** Parsing

    The parser is the operator-stack parser of [regexp/syntax]: a frame
    holds the alternatives already closed by [|] and the concatenation
    being read, both most-recent first; [(] pushes a frame, [)] pops it.
    Patterns outside the fragment (classes, counted or lazy repetitions,
    flags, escapes of letters and digits) give [None]. *)
Record frame : Type := mkFrame { alts : list regex; cur : list regex }.

Definition empty_frame : frame := mkFrame [] [].

(** A concatenation read most-recent first, as a left-nested [Cat]. *)
Fixpoint mk_cat (rev_items : list regex) : regex :=
  match rev_items with
  | [] => Eps
  | [x] => x
  | x :: rest => Cat (mk_cat rest) x
  end.

(** The alternatives of a frame, in source order, the first one preferred. *)
Definition close_frame (f : frame) : regex :=
  fold_left (fun acc a => Alt a acc) (alts f) (mk_cat (cur f)).

Definition push_item (x : regex) (f : frame) : frame :=
  mkFrame (alts f) (x :: cur f).

(** A repetition operator applies to the last item read; it needs one, and
    in this fragment that item is neither a repetition nor an anchor. *)
Definition repeatable (x : regex) : bool :=
  match x with
  | Star _ | Plus _ | Quest _ | Bol | Eol => false
  | _ => true
  end.

Definition push_rep (op : regex -> regex) (f : frame) : option frame :=
  match cur f with
  | x :: rest => if repeatable x then Some (mkFrame (alts f) (op x :: rest)) else None
  | [] => None
  end.

(** Bytes that a backslash turns into themselves. *)
Definition is_punct (c : ascii) : bool :=
  let n := nat_of_ascii c in
  ((33 <=? n) && (n <=? 47)) || ((58 <=? n) && (n <=? 64))
  || ((91 <=? n) && (n <=? 96)) || ((123 <=? n) && (n <=? 126)).

Fixpoint parse_loop (s : list ascii) (stack : list frame) (top : frame)
  : option regex :=
  match s with
  | [] => match stack with [] => Some (close_frame top) | _ :: _ => None end
  | c :: s' =>
      if Ascii.eqb c "(" then parse_loop s' (top :: stack) empty_frame
      else if Ascii.eqb c ")" then
        match stack with
        | [] => None
        | f :: stack' => parse_loop s' stack' (push_item (Group (close_frame top)) f)
        end
      else if Ascii.eqb c "|" then
        parse_loop s' stack (mkFrame (mk_cat (cur top) :: alts top) [])
      else if Ascii.eqb c "*" then
        match push_rep Star top with Some f => parse_loop s' stack f | None => None end
      else if Ascii.eqb c "+" then
        match push_rep Plus top with Some f => parse_loop s' stack f | None => None end
      else if Ascii.eqb c "?" then
        match push_rep Quest top with Some f => parse_loop s' stack f | None => None end
      else if Ascii.eqb c "^" then parse_loop s' stack (push_item Bol top)
      else if Ascii.eqb c "$" then parse_loop s' stack (push_item Eol top)
      else if Ascii.eqb c "." then parse_loop s' stack (push_item Any top)
      else if Ascii.eqb c "\" then
        match s' with
        | c2 :: s'' =>
            if is_punct c2 then parse_loop s'' stack (push_item (Chr c2) top) else None
        | [] => None
        end
      else if Ascii.eqb c "[" || Ascii.eqb c "{" then None
      else parse_loop s' stack (push_item (Chr c) top)
  end.

(** [regexp.Compile]; [None] is a compile error (or a pattern outside the
    fragment). *)
Definition Compile (pattern : string) : option regex :=
  parse_loop (list_ascii_of_string pattern) [] empty_frame.

(** *** Matching

    Leftmost-first (Perl-like) matching by backtracking.  A continuation
    receives the position reached and the text that remains, and answers
    with the end of the whole match. *)
Definition cont : Type := nat -> list ascii -> option nat.

(** Greedy iteration of [m1]; an iteration that consumes nothing is not
    repeated. *)
Fixpoint star_loop (m1 : cont -> cont) (k : cont) (n : nat) : cont :=
  fun pos s =>
    match n with
    | 0 => k pos s
    | S n' =>
        match m1 (fun pos' s' =>
                    if length s' <? length s then star_loop m1 k n' pos' s'
                    else None) pos s with
        | Some e => Some e
        | None => k pos s
        end
    end.

Fixpoint rmatch (r : regex) (k : cont) (pos : nat) (s : list ascii) {struct r}
  : option nat :=
  match r with
  | Eps => k pos s
  | Chr c =>
      match s with
      | a :: s' => if Ascii.eqb a c then k (S pos) s' else None
      | [] => None
      end
  | Any =>
      match s with
      | a :: s' => if Ascii.eqb a "010" then None else k (S pos) s'
      | [] => None
      end
  | Bol => if pos =? 0 then k pos s else None
  | Eol => match s with [] => k pos s | _ :: _ => None end
  | Cat r1 r2 => rmatch r1 (rmatch r2 k) pos s
  | Alt r1 r2 =>
      match rmatch r1 k pos s with
      | Some e => Some e
      | None => rmatch r2 k pos s
      end
  | Star r1 => star_loop (rmatch r1) k (length s) pos s
  | Plus r1 => rmatch r1 (fun pos' s' => star_loop (rmatch r1) k (length s') pos' s') pos s
  | Quest r1 =>
      match rmatch r1 k pos s with
      | Some e => Some e
      | None => k pos s
      end
  | Group r1 => rmatch r1 k pos s
  end.

(** The continuation that accepts wherever the pattern stops. *)
Definition accept : cont := fun pos _ => Some pos.

(** The leftmost match that starts at [pos] or later, [s] being the text
    from [pos] on: its start and its end. *)
Fixpoint search (r : regex) (pos : nat) (s : list ascii) : option (nat * nat) :=
  match rmatch r accept pos s with
  | Some e => Some (pos, e)
  | None =>
      match s with
      | [] => None
      | _ :: s' => search r (S pos) s'
      end
  end.

(** [re.MatchString(s)]. *)
Definition matchString (r : regex) (s : string) : bool :=
  match search r 0 (list_ascii_of_string s) with Some _ => true | None => false end.

(** [regexp.MatchString(pattern, s)]: the pattern is compiled at each call;
    [processLine] drops the error, and a failed compilation reports no
    match. *)
Definition MatchString (pattern s : string) : bool :=
  match Compile pattern with
  | Some r => matchString r s
  | None => false
  end.

Definition slice (src : list ascii) (from to : nat) : list ascii :=
  firstn (to - from) (skipn from src).

(** The loop of [Regexp.replaceAll] with the empty replacement: the text
    between matches is copied, the matches are dropped. *)
Fixpoint replaceAll_loop (fuel : nat) (r : regex) (src : list ascii)
    (lastMatchEnd searchPos : nat) (buf : list ascii) : list ascii :=
  match fuel with
  | 0 => buf ++ skipn lastMatchEnd src
  | S fuel' =>
      if length src <? searchPos then buf ++ skipn lastMatchEnd src
      else
        match search r searchPos (skipn searchPos src) with
        | None => buf ++ skipn lastMatchEnd src
        | Some (a0, a1) =>
            let buf' := buf ++ slice src lastMatchEnd a0 in
            let width := if searchPos <? length src then 1 else 0 in
            let searchPos' :=
              if a1 <? searchPos + width then searchPos + width
              else if a1 <? searchPos + 1 then searchPos + 1
              else a1 in
            replaceAll_loop fuel' r src a1 searchPos' buf'
        end
  end.

(** [re.ReplaceAllString(src, "")]. *)
Definition ReplaceAllString_empty (r : regex) (src : string) : string :=
  let l := list_ascii_of_string src in
  string_of_list_ascii (replaceAll_loop (S (S (length l))) r l 0 0 []).

End Regexp.

Import Regexp.

(** ** Globals of the program *)

(** [init]: [re = regexp.MustCompile("(" + terminator + ")$")]; [None] is
    the panic of [MustCompile]. *)
Definition init_re (terminator : string) : option regex :=
  Compile ("(" +++ terminator +++ ")$").

(** ** [processLine] *)

(** The string ["\n"]. *)
Definition nl : string := String (ascii_of_nat 10) "".

(** [processLine(terminator, line, batch)], the global [re] made an
    explicit argument. *)
Definition processLine (re : regex) (terminator line batch : string)
  : string * bool :=
  if negb (MatchString (terminator +++ "$") line) then
    if String.eqb batch "" then (line, false)
    else (batch +++ nl +++ line, false)
  else (batch +++ ReplaceAllString_empty re line, true).


(** ** Errors, integers and output *)

(** The error values the loop distinguishes: [io.EOF],
    [readline.ErrInterrupt], an engine error [tds.SybError], and any other
    error, each with the text of its [Error()]. *)
Inductive error : Type :=
| io_EOF
| ErrInterrupt
| SybError (msg : string)
| OtherError (msg : string).

Definition error_eqb (a b : error) : bool :=
  match a, b with
  | io_EOF, io_EOF => true
  | ErrInterrupt, ErrInterrupt => true
  | SybError m, SybError n => String.eqb m n
  | OtherError m, OtherError n => String.eqb m n
  | _, _ => false
  end.

Definition Error (e : error) : string :=
  match e with
  | io_EOF => "EOF"
  | ErrInterrupt => "Interrupt"
  | SybError m => m
  | OtherError m => m
  end.

(** Go's [int] is 64 bits wide on the platforms of the program. *)
Definition wrap64 (z : Z) : Z :=
  ((z + 2 ^ 63) mod 2 ^ 64 - 2 ^ 63)%Z.

Definition int_add (a b : Z) : Z := wrap64 (a + b).

(** The verb [%d]. *)
Definition fmt_d (z : Z) : string := NilZero.string_of_int (Z.to_int z).

(** What the program does to the outside, in order. *)
Inductive event : Type :=
| Stdout (s : string)                 (* fmt.Print*, on the standard output *)
| WOut (s : string)                   (* fmt.Fprintln(w, ...)               *)
| WFlush                              (* w.Flush()                          *)
| Render (header : list string) (rows : list (list string))  (* table.Render() *)
| SetPrompt (p : string)              (* r.SetPrompt(prompt)                *)
| SaveHistory (b : string)            (* r.SaveHistory(batch)               *)
| SelectValue (q : string)            (* r.conn.SelectValue(ctx, q)         *)
| EvBegin                             (* conn.Begin()                       *)
| EvCommit                            (* conn.Commit()                      *)
| EvRollback                          (* conn.Rollback()                    *)
| EvQuery (batch : string).           (* conn.QueryContext(ctx, batch, nil) *)

(** The globals read by the loop, set once by [init]. *)
Record config : Type := mkConfig {
  terminator : string;
  re : regex;
  echoInput : bool;
  pageSize : Z
}.

(** What a reader sees of the connection: [conn.GetEnv()] at the keys
    [serverType], [database] and [server], and the answer of
    [select @@servername] ([None] when [SelectValue] fails). *)
Record connView : Type := mkView {
  env_serverType : string;
  env_database : string;
  env_server : string;
  servername : option string
}.

(** The result of [ReadBatch]: the batch, the error, the reader afterwards
    and what was printed or set meanwhile. *)
Definition readResult (R : Type) : Type :=
  ((string * option error) * R * list event)%type.

Definition emit {R : Type} (evs : list event) (x : readResult R) : readResult R :=
  let '(be, r, evs') := x in (be, r, evs ++ evs').

(** The interface [SQLBatchReader]; [None] stands for a call that does not
    return.  ([Close] is deferred to the exit of [main] and plays no part
    in the loop.) *)
Class SQLBatchReader (R : Type) : Type :=
  ReadBatch : config -> string -> connView -> R -> option (readResult R).

(** ** [fileBatchReader] *)

Module File.

(** The [bufio.Reader] over the script: the bytes not yet read, and the
    error the underlying reader gives once they are exhausted ([io.EOF] for
    a file read to its end). *)
Record fileBatchReader : Type := mkReader {
  pending : string;
  read_err : error
}.

(** The first line of [s] with its ['\n'], and the rest; [None] when [s]
    has no ['\n']. *)
Fixpoint cut_line (s : string) : option (string * string) :=
  match s with
  | EmptyString => None
  | String c s' =>
      if Ascii.eqb c (ascii_of_nat 10) then Some (String c "", s')
      else match cut_line s' with
           | Some (l, rest) => Some (String c l, rest)
           | None => None
           end
  end.

(** [r.scanner.ReadString('\n')]: the data up to and including the
    delimiter; without a delimiter, the data that is left and the error. *)
Definition ReadString (r : fileBatchReader)
  : (string * option error) * fileBatchReader :=
  match cut_line (pending r) with
  | Some (line, rest) => ((line, None), mkReader rest (read_err r))
  | None => ((pending r, Some (read_err r)), mkReader "" (read_err r))
  end.

(** The loop of [fileBatchReader.ReadBatch], one iteration per unit of
    fuel. *)
Fixpoint ReadBatch_loop (fuel : nat) (cfg : config) (terminator : string)
    (r : fileBatchReader) (batch : string) (lineNo : Z)
  : option (readResult fileBatchReader) :=
  match fuel with
  | 0 => None
  | S fuel' =>
      let '((line, err), r1) := ReadString r in
      let stop :=
        match err with
        | Some e => negb (error_eqb e io_EOF) || String.eqb line ""
        | None => false
        end in
      if stop then Some ((batch, err), r1, [])
      else
        let '(batch', found) := processLine (re cfg) terminator line batch in
        if found then Some ((batch', None), r1, [])
        else
          let echo :=
            if echoInput cfg then [Stdout (fmt_d lineNo +++ "> " +++ line)] else [] in
          option_map (emit echo)
            (ReadBatch_loop fuel' cfg terminator r1 batch' (int_add lineNo 1))
  end.

(** [fileBatchReader.ReadBatch]: every iteration but the last two consumes
    at least one byte. *)
Definition ReadBatch (cfg : config) (terminator : string) (r : fileBatchReader)
  : option (readResult fileBatchReader) :=
  ReadBatch_loop (S (S (String.length (pending r)))) cfg terminator r "" 1%Z.

End File.

#[export] Instance fileBatchReader_SQLBatchReader : SQLBatchReader File.fileBatchReader :=
  fun cfg terminator _ r => File.ReadBatch cfg terminator r.

(** ** [readLineBatchReader] *)

Module Interactive.

(** The line editor: what the successive calls of [Readline] will return
    (a line, or an error such as [readline.ErrInterrupt]), and the cached
    [server] label.  When the user's input is exhausted [Readline] gives
    [io.EOF]. *)
Record readLineBatchReader : Type := mkReader {
  input : list (string * option error);
  server : string
}.

(** The [switch] at the head of the loop: the [server] label after it, the
    prompt, and the query it may send. *)
Definition prompt_of (cv : connView) (sv : string) (lineNo : Z)
  : string * string * list event :=
  let lookup :=
    if String.eqb sv "" then
      (match servername cv with Some v => v | None => sv end,
       [SelectValue "select @@servername"])
    else (sv, []) in
  if String.eqb (env_serverType cv) "ASE" || String.eqb (env_serverType cv) "sql server"
  then
    let '(sv', evs) := lookup in
    (sv', sv' +++ "." +++ env_database cv +++ " " +++ fmt_d lineNo +++ " $ ", evs)
  else if String.eqb (env_serverType cv) "SQL Anywhere" then
    let '(sv', evs) := lookup in
    (sv', sv' +++ " " +++ fmt_d lineNo +++ " $ ", evs)
  else
    (env_server cv, env_server cv +++ " " +++ fmt_d lineNo +++ " $ ", []).

(** The loop of [readLineBatchReader.ReadBatch] from the state
    ([server], [batch], [lineNo]); one iteration per call of [Readline]. *)
Fixpoint ReadBatch_loop (cfg : config) (terminator : string) (cv : connView)
    (inp : list (string * option error)) (sv batch : string) (lineNo : Z)
  : readResult readLineBatchReader :=
  let '(sv', prompt, evs) := prompt_of cv sv lineNo in
  let evs := evs ++ [SetPrompt prompt] in
  match inp with
  | [] => (("", Some io_EOF), mkReader [] sv', evs)
  | (line, err) :: rest =>
      match err with
      | Some ErrInterrupt =>
          emit evs (ReadBatch_loop cfg terminator cv rest sv' "" 1%Z)
      | Some e => (("", Some e), mkReader rest sv', evs)
      | None =>
          let '(batch', found) := processLine (re cfg) terminator line batch in
          if found then ((batch', None), mkReader rest sv', evs ++ [SaveHistory batch'])
          else emit evs (ReadBatch_loop cfg terminator cv rest sv' batch' (int_add lineNo 1))
      end
  end.

Definition ReadBatch (cfg : config) (terminator : string) (cv : connView)
    (r : readLineBatchReader) : readResult readLineBatchReader :=
  ReadBatch_loop cfg terminator cv (input r) (server r) "" 1%Z.

End Interactive.

#[export] Instance readLineBatchReader_SQLBatchReader
  : SQLBatchReader Interactive.readLineBatchReader :=
  fun cfg terminator cv r => Some (Interactive.ReadBatch cfg terminator cv r).

(** ** Result sets *)

(** A [time.Time], by the fields that the layout [2006-01-02 15:04:05]
    prints. *)
Record time_Time : Type := mkTime {
  year : nat; month : nat; day : nat; hour : nat; minute : nat; second : nat
}.

(** The kinds of [driver.Value] the loop tells apart; [VOther] carries what
    [fmt.Sprint] prints for the value. *)
Inductive driver_Value : Type :=
| VNil
| VTime (t : time_Time)
| VBytes (b : list ascii)
| VOther (printed : string).

Definition dec (n : nat) : string := NilZero.string_of_uint (Nat.to_uint n).

(** A number padded with zeros to [w] digits. *)
Fixpoint pad (w : nat) (s : string) : string :=
  match w - String.length s with
  | 0 => s
  | S _ => match w with 0 => s | S w' => "0" +++ pad w' s end
  end.

Definition time_Format (t : time_Time) : string :=
  pad 4 (dec (year t)) +++ "-" +++ pad 2 (dec (month t)) +++ "-" +++ pad 2 (dec (day t))
  +++ " " +++ pad 2 (dec (hour t)) +++ ":" +++ pad 2 (dec (minute t)) +++ ":"
  +++ pad 2 (dec (second t)).

Definition hex_digit (n : nat) : ascii :=
  if n <? 10 then ascii_of_nat (48 + n) else ascii_of_nat (87 + n).

(** [hex.EncodeToString]. *)
Fixpoint hex_EncodeToString (b : list ascii) : string :=
  match b with
  | [] => ""
  | c :: b' =>
      String (hex_digit (nat_of_ascii c / 16))
        (String (hex_digit (nat_of_ascii c mod 16)) (hex_EncodeToString b'))
  end.

Definition is_space (c : ascii) : bool :=
  let n := nat_of_ascii c in ((9 <=? n) && (n <=? 13)) || (n =? 32).

Fixpoint trim_left (s : string) : string :=
  match s with
  | String c s' => if is_space c then trim_left s' else s
  | EmptyString => s
  end.

Fixpoint trim_right (s : string) : string :=
  match s with
  | String c s' =>
      match trim_right s' with
      | EmptyString => if is_space c then "" else String c ""
      | t => String c t
      end
  | EmptyString => ""
  end.

(** [strings.TrimSpace], on the white space of ASCII. *)
Definition TrimSpace (s : string) : string := trim_right (trim_left s).

(** The body of the loop over the columns, for one value. *)
Definition formatValue (v : driver_Value) : string :=
  TrimSpace
    match v with
    | VNil => "NULL"
    | VTime t => time_Format t
    | VBytes b => "0x" +++ hex_EncodeToString b
    | VOther s => s
    end.

(** [data] after the loop over the columns: one cell per column, from the
    values [rows.Next] stored in [vals]. *)
Definition formatRow (cols : list string) (vals : list driver_Value) : list string :=
  map (fun i => formatValue (nth i vals VNil)) (seq 0 (length cols)).

(** One result set as the loop observes it: [Columns()] ([None] is the nil
    slice), the rows [Next] delivers before its first error ([io.EOF] or
    another one: the loop leaves on both), [AffectedRows()] and
    [ReturnStatus()] ([None] when their second result is false). *)
Record resultSet : Type := mkResultSet {
  Columns : option (list string);
  rowData : list (list driver_Value);
  AffectedRows : option Z;
  ReturnStatus : option Z
}.

(** The result sets of one submission, with what [HasNextResultSet] and
    [NextResultSet] answer after each. *)
Inductive Rows : Type :=
| LastResultSet (rs : resultSet)
| NextResultSetFails (rs : resultSet) (e : error)
| NextResultSetOk (rs : resultSet) (rest : Rows).

Definition current (rows : Rows) : resultSet :=
  match rows with
  | LastResultSet rs | NextResultSetFails rs _ | NextResultSetOk rs _ => rs
  end.

(** ** The execution loop of [main] *)

(** How a piece of the loop body ends. *)
Inductive flow : Type :=
| EndOfBody       (* the body ran to its end: next iteration *)
| ContinueInput   (* continue input *)
| BreakInput      (* break out of the loop: main ends *)
| ReturnMain      (* return from main *)
| PanicMain.      (* run-time panic *)

(** The loop over the rows of one result set: [r] counts the rows, [table]
    holds the rows appended since the last [Render] ([table.Append] is
    taken to keep the cells it is given, not the slice [data] that the
    loop overwrites).  The last component is false when [r % pageSize]
    panics (integer divide by zero). *)
Fixpoint rowLoop (pageSize : Z) (cols : list string) (rowData : list (list driver_Value))
    (r : Z) (table : list (list string)) : list event * list (list string) * bool :=
  match rowData with
  | [] => ([], table, true)
  | vals :: rest =>
      let r' := int_add r 1 in
      let table' := table ++ [formatRow cols vals] in
      if (pageSize =? 0)%Z then ([], table', false)
      else if (Z.rem r' pageSize =? 0)%Z then
        let '(evs, t, ok) := rowLoop pageSize cols rest r' [] in
        (Render cols table' :: evs, t, ok)
      else rowLoop pageSize cols rest r' table'
  end.

(** The summary line of a result set. *)
Definition summary (affected returnStatus : option Z) : list event :=
  let display :=
    match affected with
    | Some a =>
        if (1 <? a)%Z then fmt_d a +++ " rows affected" else fmt_d a +++ " row affected"
    | None => ""
    end in
  let display :=
    match returnStatus with
    | Some s =>
        (match affected with Some _ => display +++ ", " | None => display end)
        +++ "return status = " +++ fmt_d s
    | None => display
    end in
  match returnStatus, affected with
  | None, None => []
  | _, _ => [WOut ("(" +++ display +++ ")" +++ nl)]
  end.

(** The handling of one result set up to [w.Flush()]; [None] for a nil
    column list ([continue input]). *)
Definition renderResultSet (cfg : config) (rs : resultSet) : option (list event * bool) :=
  match Columns rs with
  | None => None
  | Some cols =>
      let '(evs, table, ok) := rowLoop (pageSize cfg) cols (rowData rs) 0%Z [] in
      if ok then
        (* data := make([]string, len(cols)) *)
        let len_data := length cols in
        let final :=
          if (0 <? len_data) && (0 <? length cols) then [Render cols table] else [] in
        Some (evs ++ final ++ summary (AffectedRows rs) (ReturnStatus rs) ++ [WFlush], true)
      else Some (evs, false)
  end.

(** The loop over the result sets of a submission. *)
Fixpoint resultLoop (cfg : config) (rows : Rows) : list event * flow :=
  match renderResultSet cfg (current rows) with
  | None => ([], ContinueInput)
  | Some (evs, false) => (evs, PanicMain)
  | Some (evs, true) =>
      match rows with
      | LastResultSet _ => (evs, EndOfBody)
      | NextResultSetFails _ _ => (evs, ReturnMain)
      | NextResultSetOk _ rest =>
          let '(evs', f) := resultLoop cfg rest in
          (evs ++ Stdout nl :: evs', f)
      end
  end.

Section Main.

(** The database session [tds.Conn], by what the loop asks of it. *)
Variable Conn : Type.
Variable QueryContext : Conn -> string -> (error + Rows) * Conn.
Variables Begin Commit Rollback : Conn -> Conn.
Variable GetEnv : Conn -> connView.

Context {R : Type} {reader : SQLBatchReader R}.

Variable cfg : config.

(** The part of the loop body after the control commands and the check of
    the error: the submission and its results.  The interrupt listener
    around [QueryContext] neither prints nor changes what the loop does
    next, and is left out. *)
Definition execBatch (batch : string) (conn : Conn) : list event * flow * Conn :=
  let '(res, conn') := QueryContext conn batch in
  match res with
  | inl e =>
      (EvQuery batch ::
         match e with SybError _ => [] | _ => [Stdout (Error e +++ nl)] end,
       ContinueInput, conn')
  | inr rows =>
      let '(evs, f) := resultLoop cfg rows in
      (EvQuery batch :: evs, f, conn')
  end.

(** One turn of the loop [input:]; [None] when [ReadBatch] does not
    return. *)
Definition main_body (r : R) (conn : Conn)
  : option (list event * flow * R * Conn) :=
  match ReadBatch cfg (terminator cfg) (GetEnv conn) r with
  | None => None
  | Some ((batch, err), r', evs) =>
      if String.eqb batch "\b" then Some (evs ++ [EvBegin], ContinueInput, r', Begin conn)
      else if String.eqb batch "\c" then Some (evs ++ [EvCommit], ContinueInput, r', Commit conn)
      else if String.eqb batch "\r" then Some (evs ++ [EvRollback], ContinueInput, r', Rollback conn)
      else
        match err with
        | Some e =>
            Some (evs ++ (if error_eqb e io_EOF then [] else [Stdout (Error e +++ nl)]),
                  BreakInput, r', conn)
        | None =>
            let '(evs', f, conn') := execBatch batch conn in
            Some (evs ++ evs', f, r', conn')
        end
  end.

(** The loop [input:]: the trace, and how [main] ends ([None] when the
    fuel runs out first). *)
Fixpoint main_loop (fuel : nat) (r : R) (conn : Conn)
  : list event * option (flow * R * Conn) :=
  match fuel with
  | 0 => ([], None)
  | S fuel' =>
      match main_body r conn with
      | None => ([], None)
      | Some (evs, f, r', conn') =>
          match f with
          | EndOfBody | ContinueInput =>
              let '(evs', res) := main_loop fuel' r' conn' in (evs ++ evs', res)
          | _ => (evs, Some (f, r', conn'))
          end
      end
  end.

End Main.

(** ** The connection string *)

Module Cnx.

(** The flags [buildCnxStr] reads. *)
Record flags : Type := mkFlags {
  chained : bool;
  packetSize : Z;
  ssl : string;
  hostname : string;
  charset : string;
  userName : string;
  password : string;
  server : string;
  database : string
}.

Definition is_alnum (c : ascii) : bool :=
  let n := nat_of_ascii c in
  ((48 <=? n) && (n <=? 57)) || ((65 <=? n) && (n <=? 90)) || ((97 <=? n) && (n <=? 122)).

(** The bytes [url.QueryEscape] leaves as they are. *)
Definition unreserved (c : ascii) : bool :=
  is_alnum c || Ascii.eqb c "-" || Ascii.eqb c "_" || Ascii.eqb c "." || Ascii.eqb c "~".

Definition upperhex (n : nat) : ascii :=
  if n <? 10 then ascii_of_nat (48 + n) else ascii_of_nat (55 + n).

(** [url.QueryEscape]: a space becomes [+], any other byte that is not
    unreserved becomes [%XX]. *)
Fixpoint QueryEscape (s : string) : string :=
  match s with
  | EmptyString => ""
  | String c s' =>
      if Ascii.eqb c " " then String "+" (QueryEscape s')
      else if unreserved c then String c (QueryEscape s')
      else String "%" (String (upperhex (nat_of_ascii c / 16))
                         (String (upperhex (nat_of_ascii c mod 16)) (QueryEscape s')))
  end.

(** [url.Values] as [buildCnxStr] uses it: one value per key. *)
Definition Values : Type := list (string * string).

(** [v.Set(key, value)]. *)
Definition Set_ (key value : string) (v : Values) : Values :=
  (key, value) :: filter (fun kv => negb (String.eqb (fst kv) key)) v.

Fixpoint insert_sorted (kv : string * string) (l : Values) : Values :=
  match l with
  | [] => [kv]
  | kv' :: l' =>
      if String.leb (fst kv) (fst kv') then kv :: l else kv' :: insert_sorted kv l'
  end.

(** [v.Encode()]: [key=value] pairs, escaped, in the order of the keys,
    with [&] between them. *)
Definition Encode (v : Values) : string :=
  String.concat "&"
    (map (fun kv => QueryEscape (fst kv) +++ "=" +++ QueryEscape (snd kv))
       (fold_right insert_sorted [] v)).

(** The parameters [buildCnxStr] sets, in the order of the source. *)
Definition cnxValues (g : flags) : Values :=
  let v := [] in
  let v := if chained g then Set_ "mode" "chained" v else v in
  let v := if (packetSize g =? 0)%Z then v else Set_ "packetSize" (fmt_d (packetSize g)) v in
  let v := if String.eqb (ssl g) "on" then Set_ "ssl" "on" v else v in
  let v := Set_ "hostname" (hostname g) v in
  let v := Set_ "readTimeout" "10" v in
  if String.eqb (charset g) "" then v else Set_ "charset" (charset g) v.

(** [buildCnxStr]. *)
Definition buildCnxStr (g : flags) : string :=
  "tds://" +++ QueryEscape (userName g) +++ ":" +++ QueryEscape (password g)
  +++ "@" +++ server g +++ "/" +++ QueryEscape (database g) +++ "?"
  +++ Encode (cnxValues g).

(** The first offset of the byte [c] in [s]. *)
Fixpoint index_of (c : ascii) (s : string) : option nat :=
  match s with
  | EmptyString => None
  | String x s' =>
      if Ascii.eqb x c then Some 0 else option_map S (index_of c s')
  end.

(** Every byte of [s] passes [p]. *)
Fixpoint all_chars (p : ascii -> bool) (s : string) : bool :=
  match s with
  | EmptyString => true
  | String x s' => p x && all_chars p s'
  end.

(** The bytes [QueryEscape] writes. *)
Definition escaped_byte (c : ascii) : bool :=
  unreserved c || Ascii.eqb c "+" || Ascii.eqb c "%".

End Cnx.

(** ** The handler of the server's messages *)

(** A message [tds.SybError], by what the handler reads of it; [shown] is
    what [fmt.Print(m)] writes. *)
Record SybMessage : Type := mkMessage {
  Severity : Z;
  MsgNumber : Z;
  Message : string;
  shown : string
}.

(** [strings.TrimRight(s, "\n")]. *)
Fixpoint TrimRight_nl (s : string) : string :=
  match s with
  | EmptyString => ""
  | String c s' =>
      match TrimRight_nl s' with
      | EmptyString => if Ascii.eqb c (ascii_of_nat 10) then "" else String c ""
      | t => String c t
      end
  end.

(** The numbers of the messages of showplan and statistics. *)
Definition is_plan_message (n : Z) : bool :=
  ((3612 <=? n) && (n <=? 3615) || (6201 <=? n) && (n <=? 6299)
   || (10201 <=? n) && (n <=? 10299))%Z.

(** The function given to [conn.SetErrorhandler]: what it prints, and its
    result.  [Printf0 format] is what [fmt.Printf(format)] writes when it
    is given no operand. *)
Definition errorHandler (Printf0 : string -> string) (m : SybMessage)
  : list event * bool :=
  let out10 :=
    if (Severity m =? 10)%Z then
      if is_plan_message (MsgNumber m) then [Stdout (Printf0 (Message m))]
      else [Stdout (TrimRight_nl (Message m) +++ nl)]
    else [] in
  let out :=
    if (10 <? Severity m)%Z then out10 ++ [Stdout (shown m)] else out10 in
  (out, (10 <? Severity m)%Z).

(** [k] newlines. *)
Fixpoint newlines (k : nat) : string :=
  match k with
  | 0 => ""
  | S k' => String (ascii_of_nat 10) (newlines k')
  end.

Fixpoint ends_with_nl (s : string) : bool :=
  match s with
  | EmptyString => false
  | String c EmptyString => Ascii.eqb c (ascii_of_nat 10)
  | String _ s' => ends_with_nl s'
  end.

(** ** The vocabulary of the properties *)

(** A continuation is only ever called further right, on a suffix of the
    text: the position and the length of the rest add up to the same. *)
Definition reached (k : cont) (pos : nat) (s : list ascii) (e : nat) : Prop :=
  exists pos' s', k pos' s' = Some e /\ pos' + length s' = pos + length s /\ pos <= pos'.

(** A pattern all of whose matches stop at the end of the text. *)
Definition end_anchored (r : regex) : Prop :=
  forall pos s e, rmatch r accept pos s = Some e -> e = pos + length s.

(** The pattern [r] matches the text of [line] from offset [i] up to the
    end of the line. *)
Definition matches_suffix (r : regex) (line : string) (i : nat) : Prop :=
  rmatch (Cat r Eol) accept i (skipn i (list_ascii_of_string line))
  = Some (String.length line).

(** [a] is [b] with a non-empty end removed. *)
Definition strict_prefix (a b : string) : Prop :=
  exists suf, suf <> "" /\ b = a +++ suf.

(** The lines of a script as [ReadString] cuts them: each with its
    newline, the last one possibly without. *)
Fixpoint split_lines (s : string) : list string :=
  match s with
  | EmptyString => []
  | String c s' =>
      if Ascii.eqb c (ascii_of_nat 10) then String c "" :: split_lines s'
      else match split_lines s' with
           | [] => [String c ""]
           | l :: ls => String c l :: ls
           end
  end.

(** The buffer after lines on none of which the terminator matched. *)
Definition joined (batch : string) (ls : list string) : string :=
  fold_left (fun b l => if String.eqb b "" then l else b +++ nl +++ l) ls batch.

(** [evs], then what [x] does. *)
Definition then_loop {A : Type} (evs : list event) (x : list event * A) : list event * A :=
  let '(evs', res) := x in (evs ++ evs', res).

(** The chain of result sets is rendered up to a result set after which
    [NextResultSet] fails; [evs] is what is printed on the way. *)
Inductive advance_fails (cfg : config) : Rows -> list event -> Prop :=
| advance_fails_here rs e evs :
    renderResultSet cfg rs = Some (evs, true) ->
    advance_fails cfg (NextResultSetFails rs e) evs
| advance_fails_later rs rest evs evs' :
    renderResultSet cfg rs = Some (evs, true) ->
    advance_fails cfg rest evs' ->
    advance_fails cfg (NextResultSetOk rs rest) (evs ++ Stdout nl :: evs').

(** The lines typed, as [Readline] returns them. *)
Definition typed (ls : list string) : list (string * option error) :=
  map (fun l => (l, None)) ls.

(** The number of calls of [table.Render()] in a trace. *)
Fixpoint count_render (evs : list event) : nat :=
  match evs with
  | [] => 0
  | Render _ _ :: evs' => S (count_render evs')
  | _ :: evs' => count_render evs'
  end.

(** ** A session and the default settings, for the scenarios *)

(** [re] for the default terminator [;|^go], as [init] compiles it. *)
Definition default_re : regex :=
  Cat (Group (Alt (Chr ";") (Cat (Cat Bol (Chr "g")) (Chr "o")))) Eol.

Definition default_cfg : config := mkConfig ";|^go" default_re false 3000.

(** A session that records what it is asked, and answers every query by
    [answer]. *)
Definition toyConn : Type := list string.

Definition toy_query (answer : string -> error + Rows) (c : toyConn) (batch : string)
  : (error + Rows) * toyConn := (answer batch, batch :: c).

Definition toy_begin (c : toyConn) : toyConn := "begin" :: c.
Definition toy_commit (c : toyConn) : toyConn := "commit" :: c.
Definition toy_rollback (c : toyConn) : toyConn := "rollback" :: c.

Definition toy_env (c : toyConn) : connView := mkView "ASE" "master" "" (Some "SRV").

(** One column [x], one row [1]. *)
Definition one_row : resultSet := mkResultSet (Some ["x"]) [[VOther "1"]] None None.

(** The terminator [;], with the echo of the script on. *)
Definition semicolon_cfg : config := mkConfig ";" (Cat (Group (Chr ";")) Eol) true 3000.

(** Three rows with pages of two. *)
Definition three_rows : resultSet :=
  mkResultSet (Some ["x"]) [[VOther "1"]; [VNil]; [VOther " 3 "]] None None.

Definition pages_of_two : config := mkConfig ";|^go" default_re false 2.

(** [main]'s loop on the toy session. *)
Definition toy_main {R : Type} {reader : SQLBatchReader R}
    (answer : string -> error + Rows) (cfg : config) (fuel : nat) (r : R)
  : list event * option (flow * R * toyConn) :=
  main_loop toyConn (toy_query answer) toy_begin toy_commit toy_rollback toy_env
    cfg fuel r [].

(** ** More vocabulary: what a trace holds *)

(** What the script reader echoes for the lines [ls], the first of them
    numbered [lineNo]. *)
Fixpoint echo_from (lineNo : Z) (ls : list string) : list event :=
  match ls with
  | [] => []
  | l :: ls' => Stdout (fmt_d lineNo +++ "> " +++ l) :: echo_from (int_add lineNo 1) ls'
  end.

(** The tables rendered, in order: header and rows. *)
Fixpoint rendered_pages (evs : list event) : list (list string * list (list string)) :=
  match evs with
  | [] => []
  | Render h rows :: evs' => (h, rows) :: rendered_pages evs'
  | _ :: evs' => rendered_pages evs'
  end.

(** The rows rendered, in order. *)
Definition rendered_rows (evs : list event) : list (list string) :=
  concat (map snd (rendered_pages evs)).

(** The batches submitted to the session, in order. *)
Fixpoint submitted (evs : list event) : list string :=
  match evs with
  | [] => []
  | EvQuery b :: evs' => b :: submitted evs'
  | _ :: evs' => submitted evs'
  end.

(** The batches saved to the history, in order. *)
Fixpoint saved_history (evs : list event) : list string :=
  match evs with
  | [] => []
  | SaveHistory b :: evs' => b :: saved_history evs'
  | _ :: evs' => saved_history evs'
  end.

(** The number of [select @@servername] lookups. *)
Fixpoint count_select (evs : list event) : nat :=
  match evs with
  | [] => 0
  | SelectValue _ :: evs' => S (count_select evs')
  | _ :: evs' => count_select evs'
  end.

(** The three reserved batches. *)
Definition is_control (batch : string) : bool :=
  String.eqb batch "\b" || String.eqb batch "\c" || String.eqb batch "\r".

Definition first_is_space (s : string) : bool :=
  match s with
  | String c _ => is_space c
  | EmptyString => false
  end.

Fixpoint last_is_space (s : string) : bool :=
  match s with
  | EmptyString => false
  | String c EmptyString => is_space c
  | String _ s' => last_is_space s'
  end.

(** The number of prompts shown. *)
Fixpoint count_prompt (evs : list event) : nat :=
  match evs with
  | [] => 0
  | SetPrompt _ :: evs' => S (count_prompt evs')
  | _ :: evs' => count_prompt evs'
  end.

(** The prompt switch never looks the server name up: the type of the
    server is none of those that have a lookup. *)
Definition no_lookup (cv : connView) : bool :=
  negb (String.eqb (env_serverType cv) "ASE" || String.eqb (env_serverType cv) "sql server"
        || String.eqb (env_serverType cv) "SQL Anywhere").

(** The lookups in the trace [evs] of a call that starts with the label
    [sv] and ends with the label [sv_end]. *)
Definition lookups_ok (cv : connView) (sv : string) (evs : list event) (sv_end : string)
  : Prop :=
  (no_lookup cv = true \/ sv <> "" -> count_select evs = 0)
  /\ (forall v, servername cv = Some v -> v <> "" -> count_select evs <= 1)
  /\ (no_lookup cv = false -> sv = "" ->
      servername cv = None \/ servername cv = Some "" ->
      count_select evs = count_prompt evs /\ sv_end = "").


(** ** Vocabulary of the summary line and of the prompts *)

(** The lines written to [w] by [fmt.Fprintln], in order. *)
Fixpoint w_lines (evs : list event) : list string :=
  match evs with
  | [] => []
  | WOut l :: evs' => l :: w_lines evs'
  | _ :: evs' => w_lines evs'
  end.

(** The result sets of a submission, in order. *)
Fixpoint result_sets (rows : Rows) : list resultSet :=
  match rows with
  | LastResultSet rs => [rs]
  | NextResultSetFails rs _ => [rs]
  | NextResultSetOk rs rest => rs :: result_sets rest
  end.

(** The wording of the count of rows: plural from 2 on. *)
Definition rows_text (n : Z) : string :=
  fmt_d n +++ (if (1 <? n)%Z then " rows affected" else " row affected").

Definition status_text (s : Z) : string := "return status = " +++ fmt_d s.

(** The summary of a result set as it reads: nothing when neither the
    count of rows nor the return status is reported, else one line between
    parentheses, the count first, a comma between the two. *)
Definition summary_text (affected returnStatus : option Z) : list string :=
  match affected, returnStatus with
  | None, None => []
  | Some n, None => ["(" +++ rows_text n +++ ")" +++ nl]
  | None, Some s => ["(" +++ status_text s +++ ")" +++ nl]
  | Some n, Some s => ["(" +++ rows_text n +++ ", " +++ status_text s +++ ")" +++ nl]
  end.

(** The handling of the result set [rs] reaches its summary: the column
    list is not nil and the loop over the rows does not panic. *)
Definition summarized (cfg : config) (rs : resultSet) : Prop :=
  Columns rs <> None /\ (pageSize cfg <> 0%Z \/ rowData rs = []).

(** [n] prompts in a row, numbered from [lineNo] on, from the label [sv]:
    what the prompt switch does for them, and the label after them. *)
Fixpoint prompt_events (cv : connView) (sv : string) (lineNo : Z) (n : nat)
  : list event * string :=
  match n with
  | 0 => ([], sv)
  | S n' =>
      let '(sv1, prompt, evs) := Interactive.prompt_of cv sv lineNo in
      let '(more, sv2) := prompt_events cv sv1 (int_add lineNo 1) n' in
      (evs ++ [SetPrompt prompt] ++ more, sv2)
  end.

(** * Properties *)

(** ** The matcher *)

Module RegexpFacts.

Lemma reached_trans (k1 k2 : cont) pos s e :
  reached k1 pos s e ->
  (forall p t, k1 p t = Some e -> reached k2 p t e) ->
  reached k2 pos s e.
Proof.
  intros (p & t & Hk & Hlen & Hle) H.
  destruct (H p t Hk) as (p' & t' & Hk' & Hlen' & Hle').
  exists p', t'. repeat split; [assumption | lia | lia].
Qed.

Lemma star_loop_reached (m1 : cont -> cont) :
  (forall k pos s e, m1 k pos s = Some e -> reached k pos s e) ->
  forall n k pos s e, star_loop m1 k n pos s = Some e -> reached k pos s e.
Proof.
  intros Hm1. induction n as [|n IH]; intros k pos s e H; simpl in H.
  - exists pos, s. auto.
  - destruct (m1 _ pos s) as [e'|] eqn:E.
    + injection H as ->.
      apply Hm1 in E. eapply reached_trans; [exact E|].
      intros p t Hpt. cbv beta in Hpt.
      destruct (length t <? length s); [|discriminate].
      apply IH; assumption.
    + exists pos, s. auto.
Qed.

Lemma rmatch_reached (r : regex) :
  forall k pos s e, rmatch r k pos s = Some e -> reached k pos s e.
Proof.
  induction r; intros k pos s e H; simpl in H.
  - exists pos, s. auto.
  - destruct s as [|a s']; [discriminate|].
    destruct (Ascii.eqb a c); [|discriminate].
    exists (S pos), s'. simpl. repeat split; [assumption | lia | lia].
  - destruct s as [|a s']; [discriminate|].
    destruct (Ascii.eqb a _); [discriminate|].
    exists (S pos), s'. simpl. repeat split; [assumption | lia | lia].
  - destruct (pos =? 0); [|discriminate]. exists pos, s. auto.
  - destruct s; [|discriminate]. exists pos, (@nil ascii). auto.
  - apply IHr1 in H. eapply reached_trans; [exact H|]. intros p t. apply IHr2.
  - destruct (rmatch r1 k pos s) as [e'|] eqn:E.
    + injection H as ->. apply IHr1; assumption.
    + apply IHr2; assumption.
  - eapply star_loop_reached; [|exact H]. exact IHr.
  - apply IHr in H. eapply reached_trans; [exact H|].
    intros p t. apply star_loop_reached. exact IHr.
  - destruct (rmatch r k pos s) as [e'|] eqn:E.
    + injection H as ->. apply IHr; assumption.
    + exists pos, s. auto.
  - apply IHr; assumption.
Qed.

Lemma Cat_Eol_end_anchored (r : regex) : end_anchored (Cat r Eol).
Proof.
  intros pos s e H. simpl in H.
  apply rmatch_reached in H. destruct H as (p & t & Hk & Hlen & _).
  simpl in Hk. destruct t; [|discriminate].
  unfold accept in Hk. injection Hk as <-. simpl in Hlen. lia.
Qed.

(** [search] finds the leftmost start. *)
Lemma search_Some (r : regex) : forall s pos a0 a1,
  search r pos s = Some (a0, a1) ->
  pos <= a0 <= pos + length s
  /\ rmatch r accept a0 (skipn (a0 - pos) s) = Some a1
  /\ forall j, pos <= j < a0 -> rmatch r accept j (skipn (j - pos) s) = None.
Proof.
  induction s as [|c s IH]; intros pos a0 a1 H; simpl in H.
  - destruct (rmatch r accept pos []) as [e|] eqn:E; [|discriminate].
    injection H as <- <-. rewrite Nat.sub_diag. simpl.
    repeat split; [lia | lia | assumption | intros; lia].
  - destruct (rmatch r accept pos (c :: s)) as [e|] eqn:E.
    + injection H as <- <-. rewrite Nat.sub_diag. simpl.
      repeat split; [lia | lia | assumption | intros; lia].
    + apply IH in H. destruct H as ((Hlo & Hhi) & Hm & Hleft).
      replace (a0 - pos) with (S (a0 - S pos)) by lia. simpl.
      repeat split; [lia | lia | assumption |].
      intros j Hj. destruct (Nat.eq_dec j pos) as [->|Hne].
      * rewrite Nat.sub_diag. exact E.
      * replace (j - pos) with (S (j - S pos)) by lia. simpl.
        apply Hleft. lia.
Qed.

Lemma search_None (r : regex) : forall s pos,
  search r pos s = None ->
  forall j, pos <= j <= pos + length s -> rmatch r accept j (skipn (j - pos) s) = None.
Proof.
  induction s as [|c s IH]; intros pos H j Hj; simpl in H.
  - destruct (rmatch r accept pos []) eqn:E; [discriminate|].
    simpl in Hj. replace j with pos by lia. rewrite Nat.sub_diag. exact E.
  - destruct (rmatch r accept pos (c :: s)) eqn:E; [discriminate|].
    destruct (Nat.eq_dec j pos) as [->|Hne].
    + rewrite Nat.sub_diag. exact E.
    + replace (j - pos) with (S (j - S pos)) by lia. simpl.
      apply IH; [assumption | simpl in Hj; lia].
Qed.

Lemma search_ext (r1 r2 : regex) :
  (forall pos s, rmatch r1 accept pos s = rmatch r2 accept pos s) ->
  forall s pos, search r1 pos s = search r2 pos s.
Proof.
  intros H. induction s as [|c s IH]; intros pos; simpl; rewrite H.
  - reflexivity.
  - destruct (rmatch r2 accept pos (c :: s)); [reflexivity | apply IH].
Qed.

(** Once the last match ended at the end of the text, nothing more is
    copied. *)
Lemma replaceAll_loop_done (r : regex) (l : list ascii) :
  end_anchored r ->
  forall fuel sp buf, replaceAll_loop fuel r l (length l) sp buf = buf.
Proof.
  intros Hr. induction fuel as [|fuel IH]; intros sp buf; simpl.
  - rewrite skipn_all. apply app_nil_r.
  - destruct (length l <? sp) eqn:Esp.
    + rewrite skipn_all. apply app_nil_r.
    + apply Nat.ltb_ge in Esp.
      destruct (search r sp (skipn sp l)) as [[a0 a1]|] eqn:E.
      * apply search_Some in E. destruct E as ((Hlo & Hhi) & Hm & _).
        rewrite length_skipn in Hhi.
        apply Hr in Hm. rewrite !length_skipn in Hm.
        replace a1 with (length l) by lia.
        unfold slice. rewrite skipn_all. rewrite firstn_nil. rewrite app_nil_r.
        apply IH.
      * rewrite skipn_all. apply app_nil_r.
Qed.

(** Replacing the matches of an end-anchored pattern by nothing cuts the
    text at the leftmost match. *)
Lemma replaceAll_end_anchored (r : regex) (l : list ascii) :
  end_anchored r ->
  forall fuel,
    replaceAll_loop (S fuel) r l 0 0 [] =
    match search r 0 l with
    | Some (a0, _) => firstn a0 l
    | None => l
    end.
Proof.
  intros Hr fuel. simpl.
  destruct (search r 0 l) as [[a0 a1]|] eqn:E; [|reflexivity].
  pose proof (search_Some _ _ _ _ _ E) as ((_ & Hhi) & Hm & _).
  apply Hr in Hm. rewrite length_skipn in Hm.
  replace a1 with (length l) by lia.
  rewrite replaceAll_loop_done by assumption.
  unfold slice. simpl. rewrite Nat.sub_0_r. reflexivity.
Qed.

End RegexpFacts.

(** ** Strings *)

Lemma string_of_list_ascii_app (a b : list ascii) :
  string_of_list_ascii (a ++ b) = string_of_list_ascii a +++ string_of_list_ascii b.
Proof. induction a as [|c a IH]; simpl; [reflexivity | now rewrite IH]. Qed.

Lemma length_string_of_list_ascii (l : list ascii) :
  String.length (string_of_list_ascii l) = length l.
Proof. induction l as [|c l IH]; simpl; [reflexivity | now rewrite IH]. Qed.

Lemma length_list_ascii_of_string (s : string) :
  length (list_ascii_of_string s) = String.length s.
Proof. induction s as [|c s IH]; simpl; [reflexivity | now rewrite IH]. Qed.

Lemma append_assoc (a b c : string) : (a +++ b) +++ c = a +++ b +++ c.
Proof. induction a as [|x a IH]; simpl; [reflexivity | now rewrite IH]. Qed.

(** ** [processLine] and the terminator *)

Module ProcessLine.

Import RegexpFacts.

(** The test of [processLine] is the search of the compiled pattern. *)
Lemma found_search (re : regex) (t line batch : string) (p : regex) :
  Compile (t +++ "$") = Some p ->
  snd (processLine re t line batch)
  = match search p 0 (list_ascii_of_string line) with Some _ => true | None => false end.
Proof.
  intros Hp. unfold processLine, MatchString, matchString. rewrite Hp.
  destruct (search p 0 (list_ascii_of_string line)); simpl; [reflexivity|].
  destruct (String.eqb batch ""); reflexivity.
Qed.

(** When the terminator matches, the batch is the buffer followed at once
    by the line as [re] strips it. *)
Lemma processLine_found (re : regex) (t line batch : string) :
  snd (processLine re t line batch) = true ->
  fst (processLine re t line batch) = batch +++ ReplaceAllString_empty re line.
Proof.
  unfold processLine. destruct (MatchString (t +++ "$") line); simpl.
  - reflexivity.
  - destruct (String.eqb batch ""); discriminate.
Qed.

(** When it does not, the line joins the buffer after a newline, the first
    line alone. *)
Lemma processLine_not_found (re : regex) (t line batch : string) :
  snd (processLine re t line batch) = false ->
  fst (processLine re t line batch)
  = if String.eqb batch "" then line else batch +++ nl +++ line.
Proof.
  unfold processLine. destruct (MatchString (t +++ "$") line); simpl.
  - discriminate.
  - destruct (String.eqb batch ""); reflexivity.
Qed.

(** What [re] removes from a line: everything from the leftmost offset at
    which the terminator matches up to the end. *)
Lemma strip_end_anchored (r : regex) (line : string) :
  ReplaceAllString_empty (Cat (Group r) Eol) line
  = match search (Cat r Eol) 0 (list_ascii_of_string line) with
    | Some (a0, _) => string_of_list_ascii (firstn a0 (list_ascii_of_string line))
    | None => line
    end.
Proof.
  unfold ReplaceAllString_empty.
  rewrite replaceAll_end_anchored by apply Cat_Eol_end_anchored.
  rewrite (search_ext (Cat (Group r) Eol) (Cat r Eol)) by reflexivity.
  destruct (search (Cat r Eol) 0 (list_ascii_of_string line)) as [[a0 a1]|].
  - reflexivity.
  - apply string_of_list_ascii_of_string.
Qed.

(** C1, as the code has it.  For a terminator [t] whose test pattern
    [t+"$"] is the end-anchored pattern [r$] that [re = (t)$] strips (no
    alternation at the top of [t]): [processLine] reports a match exactly
    when [r] matches some end of the line, up to the end of the line; the
    text it returns is then the buffer followed by the line cut at the
    leftmost offset from which [r] matches up to the end, so the line
    without the matched end, a prefix of the line (a strict one when the
    matched end is not empty). *)
Theorem processLine_end_anchored (t : string) (r : regex) (line batch : string) :
  Compile (t +++ "$") = Some (Cat r Eol) ->
  init_re t = Some (Cat (Group r) Eol) ->
  let out := processLine (Cat (Group r) Eol) t line batch in
  (snd out = true <-> exists i, i <= String.length line /\ matches_suffix r line i)
  /\ (snd out = true ->
      exists pre suf,
        line = pre +++ suf
        /\ fst out = batch +++ pre
        /\ matches_suffix r line (String.length pre)
        /\ (forall j, j < String.length pre -> ~ matches_suffix r line j)
        /\ (suf <> "" -> strict_prefix pre line)).
Proof.
  intros Hp _ out. subst out.
  set (l := list_ascii_of_string line).
  assert (Hlen : length l = String.length line) by apply length_list_ascii_of_string.
  split; [split|].
  - intros Hf. rewrite (found_search _ _ _ _ _ Hp) in Hf. fold l in Hf.
    destruct (search (Cat r Eol) 0 l) as [[a0 a1]|] eqn:E; [|discriminate].
    apply search_Some in E. destruct E as ((_ & Hhi) & Hm & _).
    rewrite Nat.sub_0_r in Hm.
    pose proof (Cat_Eol_end_anchored _ _ _ _ Hm) as He. rewrite length_skipn in He.
    exists a0. split; [lia|]. unfold matches_suffix. fold l.
    rewrite Hm. f_equal. lia.
  - intros (i & Hi & Hm). rewrite (found_search _ _ _ _ _ Hp). fold l.
    destruct (search (Cat r Eol) 0 l) eqn:E; [reflexivity|].
    pose proof (search_None _ _ _ E i) as Hn. rewrite Nat.sub_0_r in Hn.
    unfold matches_suffix in Hm. fold l in Hm. rewrite Hn in Hm by lia. discriminate.
  - intros Hf. rewrite (processLine_found _ _ _ _ Hf).
    rewrite (found_search _ _ _ _ _ Hp) in Hf. fold l in Hf.
    rewrite strip_end_anchored. fold l.
    destruct (search (Cat r Eol) 0 l) as [[a0 a1]|] eqn:E; [|discriminate].
    apply search_Some in E. destruct E as ((_ & Hhi) & Hm & Hleft).
    rewrite Nat.sub_0_r in Hm.
    pose proof (Cat_Eol_end_anchored _ _ _ _ Hm) as He. rewrite length_skipn in He.
    assert (Hpre : String.length (string_of_list_ascii (firstn a0 l)) = a0).
    { rewrite length_string_of_list_ascii, length_firstn. lia. }
    exists (string_of_list_ascii (firstn a0 l)), (string_of_list_ascii (skipn a0 l)).
    assert (Hsplit : line = string_of_list_ascii (firstn a0 l)
                            +++ string_of_list_ascii (skipn a0 l)).
    { rewrite <- string_of_list_ascii_app, firstn_skipn.
      symmetry. apply string_of_list_ascii_of_string. }
    repeat split.
    + exact Hsplit.
    + rewrite Hpre. unfold matches_suffix. fold l. rewrite Hm. f_equal. lia.
    + rewrite Hpre. intros j Hj Hmj. unfold matches_suffix in Hmj. fold l in Hmj.
      pose proof (Hleft j) as Hn. rewrite Nat.sub_0_r in Hn.
      rewrite Hn in Hmj by lia. discriminate.
    + intros Hne. exists (string_of_list_ascii (skipn a0 l)). split; assumption.
Qed.

(** The theorem applies to the terminator [;], on the line [select 1;]. *)
Lemma processLine_end_anchored_witness :
  Compile (";" +++ "$") = Some (Cat (Chr ";") Eol)
  /\ init_re ";" = Some (Cat (Group (Chr ";")) Eol)
  /\ processLine (Cat (Group (Chr ";")) Eol) ";" "select 1;" "" = ("select 1", true)
  /\ (snd (processLine (Cat (Group (Chr ";")) Eol) ";" "select 1;" "") = true
      <-> exists i, i <= String.length "select 1;" /\ matches_suffix (Chr ";") "select 1;" i).
Proof.
  split; [reflexivity|]. split; [reflexivity|]. split; [reflexivity|].
  exact (proj1 (processLine_end_anchored ";" (Chr ";") "select 1;" ""
                  eq_refl eq_refl)).
Defined.

(** C1 as stated fails: a terminator that matches the empty string
    (here [;*]) matches at the end of every line, and the line comes back
    whole, not as a strict prefix of itself. *)
Lemma processLine_empty_match_not_strict :
  init_re ";*" = Some (Cat (Group (Star (Chr ";"))) Eol)
  /\ processLine (Cat (Group (Star (Chr ";"))) Eol) ";*" "select 1" "" = ("select 1", true)
  /\ ~ strict_prefix
         (fst (processLine (Cat (Group (Star (Chr ";"))) Eol) ";*" "select 1" ""))
         "select 1".
Proof.
  split; [reflexivity|]. split; [reflexivity|].
  intros (suf & Hne & Heq). vm_compute in Heq.
  injection Heq as Heq. apply Hne. symmetry. exact Heq.
Qed.

(** The default terminator [;|^go] has an alternation at its top: in the
    test pattern [;|^go$] the anchor binds to [^go] alone, so a [;] in the
    middle of a line ends the batch, while [re = (;|^go)$] finds nothing to
    strip. *)
Lemma processLine_default_mid_line :
  Compile (";|^go" +++ "$")
  = Some (Alt (Chr ";") (Cat (Cat (Cat Bol (Chr "g")) (Chr "o")) Eol))
  /\ init_re ";|^go" = Some default_re
  /\ processLine default_re ";|^go" "select 1; select 2" ""
     = ("select 1; select 2", true).
Proof. repeat split; reflexivity. Qed.

(** C2: on the buffer [select 1] and the line [from t;], terminator [;],
    the finalized batch is [select 1from t]: the stripped line follows the
    buffer with no newline between them, where the specification has
    [select 1], a newline, [from t]. *)
Theorem processLine_found_no_newline :
  init_re ";" = Some (Cat (Group (Chr ";")) Eol)
  /\ processLine (Cat (Group (Chr ";")) Eol) ";" "from t;" "select 1"
     = ("select 1from t", true)
  /\ "select 1from t" <> "select 1" +++ nl +++ "from t".
Proof. repeat split; try reflexivity. discriminate. Qed.

End ProcessLine.

(** ** The scripted source *)

Module FileFacts.

Import File.

Lemma cut_line_Some (s line rest : string) :
  cut_line s = Some (line, rest) ->
  split_lines s = line :: split_lines rest
  /\ line <> ""
  /\ String.length s = String.length line + String.length rest.
Proof.
  revert line rest. induction s as [|c s IH]; intros line rest H; simpl in H.
  - discriminate.
  - simpl. destruct (Ascii.eqb c (ascii_of_nat 10)).
    + injection H as <- <-.
      split; [reflexivity | split; [discriminate | reflexivity]].
    + destruct (cut_line s) as [[l r]|]; [|discriminate].
      injection H as <- <-.
      destruct (IH l r eq_refl) as (-> & _ & Hlen).
      split; [reflexivity | split; [discriminate | simpl; now rewrite Hlen]].
Qed.

Lemma cut_line_None (s : string) :
  cut_line s = None -> s <> "" -> split_lines s = [s].
Proof.
  induction s as [|c s IH]; intros H Hne; simpl in H.
  - contradiction.
  - simpl. destruct (Ascii.eqb c (ascii_of_nat 10)); [discriminate|].
    destruct (cut_line s) as [[l r]|] eqn:E; [discriminate|].
    destruct s as [|c' s'].
    + reflexivity.
    + rewrite IH; [reflexivity | reflexivity | discriminate].
Qed.

(** [ReadBatch] always returns: the loop never runs out of its fuel. *)
Lemma ReadBatch_loop_returns (cfg : config) (t : string) :
  forall fuel r batch lineNo,
    String.length (pending r) + 2 <= fuel ->
    exists res, ReadBatch_loop fuel cfg t r batch lineNo = Some res.
Proof.
  induction fuel as [|fuel IH]; intros r batch lineNo Hfuel; [lia|].
  simpl. unfold ReadString.
  destruct (cut_line (pending r)) as [[line rest]|] eqn:E.
  - apply cut_line_Some in E. destruct E as (_ & Hne & Hlen).
    destruct (processLine (re cfg) t line batch) as [batch' found].
    destruct found; [eauto|].
    destruct line as [|c line]; [contradiction|]. simpl in Hlen.
    destruct (IH (mkReader rest (read_err r)) batch' (int_add lineNo 1)) as [res Hres];
      [simpl; lia|].
    rewrite Hres. simpl. eauto.
  - destruct (negb (error_eqb (read_err r) io_EOF) || String.eqb (pending r) "") eqn:Estop;
      [eauto|].
    destruct (processLine (re cfg) t (pending r) batch) as [batch' found].
    destruct found; [eauto|].
    apply orb_false_elim in Estop. destruct Estop as [_ Hne].
    destruct (pending r) as [|c p]; [discriminate|]. simpl in Hfuel.
    destruct (IH (mkReader "" (read_err r)) batch' (int_add lineNo 1)) as [res Hres];
      [simpl; lia|].
    rewrite Hres. simpl. eauto.
Qed.

Lemma ReadBatch_returns (cfg : config) (t : string) (r : fileBatchReader) :
  exists res, ReadBatch cfg t r = Some res.
Proof. apply ReadBatch_loop_returns. lia. Qed.

(** At the end of the input the reader stays there: an empty batch and
    the error of the stream. *)
Lemma ReadBatch_at_end (cfg : config) (t : string) (e : error) :
  ReadBatch cfg t (mkReader "" e) = Some (("", Some e), mkReader "" e, []).
Proof.
  unfold ReadBatch. simpl. rewrite orb_true_r. reflexivity.
Qed.

Lemma joined_not_empty (ls : list string) : forall batch,
  batch <> "" -> joined batch ls <> "".
Proof.
  induction ls as [|l ls IH]; intros batch Hne; simpl; [assumption|].
  apply IH. destruct batch; [contradiction|]. simpl. discriminate.
Qed.

Lemma joined_concat (ls : list string) : forall l0,
  l0 <> "" -> joined l0 ls = String.concat nl (l0 :: ls).
Proof.
  induction ls as [|l ls IH]; intros l0 Hne.
  - reflexivity.
  - change (joined l0 (l :: ls))
      with (joined (if String.eqb l0 "" then l else l0 +++ nl +++ l) ls).
    destruct l0 as [|c l0]; [contradiction|].
    change (String.eqb (String c l0) "") with false. cbv iota.
    rewrite IH by (simpl; discriminate).
    change (String.concat nl (String c l0 :: l :: ls))
      with (String c l0 +++ nl +++ String.concat nl (l :: ls)).
    destruct ls as [|l' ls].
    + reflexivity.
    + change (String.concat nl ((String c l0 +++ nl +++ l) :: l' :: ls))
        with ((String c l0 +++ nl +++ l) +++ nl +++ String.concat nl (l' :: ls)).
      change (String.concat nl (l :: l' :: ls))
        with (l +++ nl +++ String.concat nl (l' :: ls)).
      now rewrite !append_assoc.
Qed.

(** The loop over a script without a terminator: it accumulates every
    line and leaves with the buffer and [io.EOF]. *)
Lemma ReadBatch_loop_unterminated (cfg : config) (t : string) :
  forall fuel s batch lineNo,
    String.length s + 2 <= fuel ->
    Forall (fun l => MatchString (t +++ "$") l = false) (split_lines s) ->
    exists evs,
      ReadBatch_loop fuel cfg t (mkReader s io_EOF) batch lineNo
      = Some ((joined batch (split_lines s), Some io_EOF), mkReader "" io_EOF, evs).
Proof.
  induction fuel as [|fuel IH]; intros s batch lineNo Hfuel Hall; [lia|].
  simpl. unfold ReadString. simpl.
  destruct (cut_line s) as [[line rest]|] eqn:E.
  - apply cut_line_Some in E. destruct E as (Hs & Hne & Hlen).
    rewrite Hs in *. inversion Hall as [|? ? Hm Hrest]; subst.
    unfold processLine. rewrite Hm. simpl.
    destruct line as [|c line]; [contradiction|]. simpl in Hlen.
    destruct (String.eqb batch "");
      match goal with
      | |- context [ReadBatch_loop fuel cfg t _ ?b ?n] =>
          destruct (IH rest b n) as [evs Hevs];
          [lia | assumption | rewrite Hevs; simpl; eauto]
      end.
  - destruct s as [|c s].
    + simpl. eauto.
    + rewrite (cut_line_None _ E) in * by discriminate.
      change (String.eqb (String c s) "") with false. simpl.
      inversion Hall as [|? ? Hm _]; subst.
      unfold processLine. rewrite Hm. simpl.
      destruct fuel as [|fuel]; [simpl in Hfuel; lia|].
      destruct (String.eqb batch ""); simpl; eauto.
Qed.

(** C3, as the code has it.  When the script ends with a non-empty batch
    pending on which the terminator never matched, [ReadBatch] returns the
    accumulated text (the lines read, joined by newlines) together with
    the error [io.EOF], not with a nil error; the next call returns
    [io.EOF] with an empty batch. *)
Theorem ReadBatch_unterminated_EOF (cfg : config) (t : string) (s : string) :
  s <> "" ->
  Forall (fun l => MatchString (t +++ "$") l = false) (split_lines s) ->
  exists batch evs,
    ReadBatch cfg t (mkReader s io_EOF)
    = Some ((batch, Some io_EOF), mkReader "" io_EOF, evs)
    /\ batch = String.concat nl (split_lines s)
    /\ batch <> ""
    /\ ReadBatch cfg t (mkReader "" io_EOF)
       = Some (("", Some io_EOF), mkReader "" io_EOF, []).
Proof.
  intros Hne Hall.
  destruct (ReadBatch_loop_unterminated cfg t (S (S (String.length s))) s "" 1%Z)
    as [evs Hevs]; [lia | assumption |].
  assert (Hls : exists l ls, split_lines s = l :: ls /\ l <> "").
  { destruct (cut_line s) as [[l rest]|] eqn:E.
    - apply cut_line_Some in E. destruct E as (-> & Hl & _). eauto.
    - rewrite (cut_line_None _ E Hne). eauto. }
  destruct Hls as (l & ls & Hls & Hl).
  exists (joined "" (split_lines s)), evs.
  split; [exact Hevs|]. rewrite Hls.
  change (joined "" (l :: ls)) with (joined l ls).
  split; [apply joined_concat; assumption|].
  split; [apply joined_not_empty; assumption|].
  apply ReadBatch_at_end.
Qed.

End FileFacts.

(** ** The execution loop *)

Lemma resultLoop_advance_fails (cfg : config) (rows : Rows) (evs : list event) :
  advance_fails cfg rows evs -> resultLoop cfg rows = (evs, ReturnMain).
Proof.
  induction 1 as [rs e evs H | rs rest evs evs' H _ IH]; simpl; rewrite H.
  - reflexivity.
  - rewrite IH. reflexivity.
Qed.

Lemma resultLoop_ReturnMain (cfg : config) (rows : Rows) : forall evs,
  resultLoop cfg rows = (evs, ReturnMain) -> advance_fails cfg rows evs.
Proof.
  induction rows as [rs | rs e | rs rest IH]; intros evs H; simpl in H;
    destruct (renderResultSet cfg rs) as [[evs0 [|]]|] eqn:E; try discriminate.
  - injection H as <-. now constructor.
  - destruct (resultLoop cfg rest) as [evs' f] eqn:E'.
    injection H as <- ->. constructor; [assumption | now apply IH].
Qed.

Section MainFacts.

Variable Conn : Type.
Variable QueryContext : Conn -> string -> (error + Rows) * Conn.
Variables Begin Commit Rollback : Conn -> Conn.
Variable GetEnv : Conn -> connView.
Context {R : Type} {reader : SQLBatchReader R}.
Variable cfg : config.

Abbreviation body := (main_body Conn QueryContext Begin Commit Rollback GetEnv cfg).
Abbreviation loop := (main_loop Conn QueryContext Begin Commit Rollback GetEnv cfg).

(** A turn that ends in [continue input] is followed by another turn. *)
Lemma main_loop_continue (fuel : nat) (r r' : R) (conn conn' : Conn) (evs : list event) :
  body r conn = Some (evs, ContinueInput, r', conn') ->
  loop (S fuel) r conn = then_loop evs (loop fuel r' conn').
Proof. intros H. simpl. rewrite H. reflexivity. Qed.

(** A turn that ends otherwise than by reaching the end of the body or
    [continue input] is the last one. *)
Lemma main_loop_stop (fuel : nat) (r r' : R) (conn conn' : Conn) (evs : list event)
    (f : flow) :
  body r conn = Some (evs, f, r', conn') ->
  f <> EndOfBody -> f <> ContinueInput ->
  loop (S fuel) r conn = (evs, Some (f, r', conn')).
Proof.
  intros H H1 H2. simpl. rewrite H. destruct f; try reflexivity; contradiction.
Qed.

(** C7.  A batch equal to [\b], [\c] or [\r] makes the turn of the loop
    call [Begin], [Commit] or [Rollback], once, and nothing else: beyond
    what the reader did, the turn's only event is that call (no
    [QueryContext], no [Render], no output), the session is changed by
    that primitive alone, and the loop goes on with the next
    [ReadBatch]. *)
Theorem control_command_dispatch (r r' : R) (conn : Conn) (batch : string)
    (err : option error) (evs : list event) :
  ReadBatch cfg (terminator cfg) (GetEnv conn) r = Some ((batch, err), r', evs) ->
  (batch = "\b" ->
     body r conn = Some (evs ++ [EvBegin], ContinueInput, r', Begin conn)
     /\ forall fuel, loop (S fuel) r conn
                     = then_loop (evs ++ [EvBegin]) (loop fuel r' (Begin conn)))
  /\ (batch = "\c" ->
     body r conn = Some (evs ++ [EvCommit], ContinueInput, r', Commit conn)
     /\ forall fuel, loop (S fuel) r conn
                     = then_loop (evs ++ [EvCommit]) (loop fuel r' (Commit conn)))
  /\ (batch = "\r" ->
     body r conn = Some (evs ++ [EvRollback], ContinueInput, r', Rollback conn)
     /\ forall fuel, loop (S fuel) r conn
                     = then_loop (evs ++ [EvRollback]) (loop fuel r' (Rollback conn))).
Proof.
  intros Hread.
  assert (Hb : forall ev prim,
             body r conn = Some (evs ++ [ev], ContinueInput, r', prim) ->
             body r conn = Some (evs ++ [ev], ContinueInput, r', prim)
             /\ forall fuel, loop (S fuel) r conn
                             = then_loop (evs ++ [ev]) (loop fuel r' prim)).
  { intros ev prim H. split; [exact H|]. intros fuel.
    now apply main_loop_continue. }
  split; [|split]; intros ->; apply Hb; unfold main_body; rewrite Hread; reflexivity.
Qed.

(** C10.  The control commands are looked at before the error of
    [ReadBatch]: a batch equal to [\b], [\c] or [\r] that comes with an
    error still calls the primitive; the error is not printed and does not
    end the loop, which calls [ReadBatch] again; with any other batch the
    same error ends the loop. *)
Theorem control_command_before_error (r r' : R) (conn : Conn) (batch : string)
    (e : error) (evs : list event) :
  ReadBatch cfg (terminator cfg) (GetEnv conn) r = Some ((batch, Some e), r', evs) ->
  (batch = "\b" ->
     forall fuel, loop (S fuel) r conn
                  = then_loop (evs ++ [EvBegin]) (loop fuel r' (Begin conn)))
  /\ (batch = "\c" ->
     forall fuel, loop (S fuel) r conn
                  = then_loop (evs ++ [EvCommit]) (loop fuel r' (Commit conn)))
  /\ (batch = "\r" ->
     forall fuel, loop (S fuel) r conn
                  = then_loop (evs ++ [EvRollback]) (loop fuel r' (Rollback conn)))
  /\ (batch <> "\b" -> batch <> "\c" -> batch <> "\r" ->
     forall fuel, loop (S fuel) r conn
                  = (evs ++ (if error_eqb e io_EOF then [] else [Stdout (Error e +++ nl)]),
                     Some (BreakInput, r', conn))).
Proof.
  intros Hread.
  split; [|split; [|split]].
  1-3: intros -> fuel; apply main_loop_continue; unfold main_body; rewrite Hread;
       reflexivity.
  intros Hb Hc Hr fuel. apply main_loop_stop; try discriminate.
  unfold main_body. rewrite Hread.
  apply String.eqb_neq in Hb, Hc, Hr. rewrite Hb, Hc, Hr. reflexivity.
Qed.

(** C6, as the code has it.  When [NextResultSet] fails, [main] returns:
    the turn's events end the trace, whatever the fuel, and the reader is
    left as the last [ReadBatch] left it: no further batch is read or
    executed. *)
Theorem next_result_set_error_returns (r r' : R) (conn conn' : Conn) (batch : string)
    (rows : Rows) (evs evs1 : list event) :
  ReadBatch cfg (terminator cfg) (GetEnv conn) r = Some ((batch, None), r', evs) ->
  batch <> "\b" -> batch <> "\c" -> batch <> "\r" ->
  QueryContext conn batch = (inr rows, conn') ->
  advance_fails cfg rows evs1 ->
  forall fuel,
    loop (S fuel) r conn = (evs ++ EvQuery batch :: evs1, Some (ReturnMain, r', conn')).
Proof.
  intros Hread Hb Hc Hr Hq Hfail fuel.
  apply main_loop_stop; try discriminate.
  unfold main_body, execBatch. rewrite Hread.
  apply String.eqb_neq in Hb, Hc, Hr. rewrite Hb, Hc, Hr.
  rewrite Hq. rewrite (resultLoop_advance_fails _ _ _ Hfail). reflexivity.
Qed.

End MainFacts.

(** ** The interactive source *)

Module InteractiveFacts.

Import Interactive.

Lemma emit_nil {R : Type} (x : readResult R) : emit [] x = x.
Proof. destruct x as [[be r] evs]. reflexivity. Qed.

Lemma emit_emit {R : Type} (a b : list event) (x : readResult R) :
  emit a (emit b x) = emit (a ++ b) x.
Proof. destruct x as [[be r] evs]. simpl. now rewrite app_assoc. Qed.

(** One turn of the loop on an interrupt: the buffer is emptied, the line
    counter is back at 1, and the loop goes on. *)
Lemma ReadBatch_loop_interrupt (cfg : config) (t : string) (cv : connView)
    (line : string) (rest : list (string * option error)) (sv batch : string) (lineNo : Z) :
  ReadBatch_loop cfg t cv ((line, Some ErrInterrupt) :: rest) sv batch lineNo
  = let '(sv', prompt, evs) := prompt_of cv sv lineNo in
    emit (evs ++ [SetPrompt prompt]) (ReadBatch_loop cfg t cv rest sv' "" 1%Z).
Proof. simpl. destruct (prompt_of cv sv lineNo) as [[sv' p] evs]. reflexivity. Qed.

(** Lines on which the terminator does not match are accumulated, and the
    loop goes on. *)
Lemma ReadBatch_loop_accumulate (cfg : config) (t : string) (cv : connView)
    (tail : list (string * option error)) :
  forall pre sv batch lineNo,
    Forall (fun l => MatchString (t +++ "$") l = false) pre ->
    exists evs sv' batch' lineNo',
      ReadBatch_loop cfg t cv (typed pre ++ tail) sv batch lineNo
      = emit evs (ReadBatch_loop cfg t cv tail sv' batch' lineNo').
Proof.
  induction pre as [|l pre IH]; intros sv batch lineNo Hall.
  - exists [], sv, batch, lineNo. simpl. now rewrite emit_nil.
  - inversion Hall as [|? ? Hm Hrest]; subst.
    change (typed (l :: pre) ++ tail) with ((l, @None error) :: (typed pre ++ tail)).
    cbn [ReadBatch_loop]. fold ReadBatch_loop.
    destruct (prompt_of cv sv lineNo) as [[sv1 p] evs1].
    unfold processLine at 1. rewrite Hm. cbn [negb].
    destruct (String.eqb batch "");
      match goal with
      | |- context [ReadBatch_loop cfg t cv (typed pre ++ tail) ?s ?b ?n] =>
          destruct (IH s b n Hrest) as (evs & sv' & batch' & lineNo' & ->)
      end;
      rewrite emit_emit; eauto.
Qed.

(** On an interrupt [ReadBatch] empties the buffer, puts the line
    counter back at 1 and goes on prompting without returning; so when
    lines are being accumulated and an interrupt comes, the call ends as a
    fresh [ReadBatch] on what is typed after the interrupt does: same
    batch, same error, same reader afterwards, hence a batch made only of
    lines entered after the interrupt. *)
Theorem interrupt_discards_buffer (cfg : config) (t : string) (cv : connView)
    (pre : list string) (line : string) (rest : list (string * option error))
    (sv : string) :
  Forall (fun l => MatchString (t +++ "$") l = false) pre ->
  (forall sv0 batch lineNo,
      ReadBatch_loop cfg t cv ((line, Some ErrInterrupt) :: rest) sv0 batch lineNo
      = emit (snd (prompt_of cv sv0 lineNo)
              ++ [SetPrompt (snd (fst (prompt_of cv sv0 lineNo)))])
          (ReadBatch_loop cfg t cv rest (fst (fst (prompt_of cv sv0 lineNo))) "" 1%Z))
  /\ exists evs sv',
      ReadBatch cfg t cv (mkReader (typed pre ++ (line, Some ErrInterrupt) :: rest) sv)
      = emit evs (ReadBatch cfg t cv (mkReader rest sv')).
Proof.
  intros Hall. split.
  - intros sv0 batch lineNo. rewrite ReadBatch_loop_interrupt.
    destruct (prompt_of cv sv0 lineNo) as [[sv' p] evs]. reflexivity.
  - unfold ReadBatch. simpl input. simpl server.
    destruct (ReadBatch_loop_accumulate cfg t cv ((line, Some ErrInterrupt) :: rest)
                pre sv "" 1%Z Hall) as (evs & sv1 & batch1 & lineNo1 & ->).
    rewrite ReadBatch_loop_interrupt.
    destruct (prompt_of cv sv1 lineNo1) as [[sv' p] evs1].
    rewrite emit_emit. eauto.
Qed.

End InteractiveFacts.

(** ** Rendering a result set *)

Module RenderFacts.

Lemma count_render_app (a b : list event) :
  count_render (a ++ b) = count_render a + count_render b.
Proof.
  induction a as [|e a IH]; simpl; [reflexivity|].
  destruct e; simpl; now rewrite IH.
Qed.

Lemma count_render_summary (a s : option Z) : count_render (summary a s) = 0.
Proof. destruct a, s; reflexivity. Qed.

Lemma wrap64_small (z : Z) : (- 2 ^ 63 <= z < 2 ^ 63)%Z -> wrap64 z = z.
Proof.
  intros H. unfold wrap64.
  rewrite Z.mod_small by lia. lia.
Qed.

Lemma div_succ_multiple (r S : Z) :
  (0 < S)%Z -> (0 <= r)%Z -> ((r + 1) mod S = 0)%Z -> ((r + 1) / S = r / S + 1)%Z.
Proof.
  intros HS Hr Hm.
  pose proof (Z.div_mod (r + 1) S ltac:(lia)) as H1. rewrite Hm in H1.
  assert (H : ((r + 1) / S - 1 = r / S)%Z)
    by (apply (Z.div_unique r S _ (S - 1)); [lia | nia]).
  lia.
Qed.

Lemma div_succ_other (r S : Z) :
  (0 < S)%Z -> (0 <= r)%Z -> ((r + 1) mod S <> 0)%Z -> ((r + 1) / S = r / S)%Z.
Proof.
  intros HS Hr Hm.
  pose proof (Z.div_mod (r + 1) S ltac:(lia)) as H1.
  pose proof (Z.mod_pos_bound (r + 1) S HS) as H2.
  apply (Z.div_unique r S _ ((r + 1) mod S - 1)); lia.
Qed.

(** With a positive page size the loop over the rows renders one page
    each time the count of rows reaches a multiple of the page size. *)
Lemma rowLoop_renders (S : Z) (cols : list string) :
  (0 < S)%Z ->
  forall rows r table,
    (0 <= r)%Z -> (r + Z.of_nat (length rows) < 2 ^ 63)%Z ->
    exists evs t,
      rowLoop S cols rows r table = (evs, t, true)
      /\ Z.of_nat (count_render evs) = ((r + Z.of_nat (length rows)) / S - r / S)%Z.
Proof.
  intros HS. induction rows as [|vals rows IH]; intros r table Hr Hbound.
  - exists [], table. simpl. split; [reflexivity|]. rewrite Z.add_0_r. lia.
  - cbn [rowLoop]. cbn [length] in *.
    unfold int_add. rewrite wrap64_small by lia.
    destruct (Z.eqb_spec S 0) as [|_]; [lia|].
    rewrite Z.rem_mod_nonneg by lia.
    replace (r + Z.of_nat (Datatypes.S (length rows)))%Z
      with ((r + 1) + Z.of_nat (length rows))%Z by lia.
    destruct (Z.eqb_spec ((r + 1) mod S) 0) as [Hm|Hm].
    + destruct (IH (r + 1)%Z [] ltac:(lia) ltac:(lia)) as (evs & t & -> & Hc).
      eexists _, _. split; [reflexivity|]. cbn [count_render].
      rewrite Nat2Z.inj_succ, Hc, (div_succ_multiple r S) by assumption. lia.
    + destruct (IH (r + 1)%Z (table ++ [formatRow cols vals]) ltac:(lia) ltac:(lia))
        as (evs & t & -> & Hc).
      eexists _, _. split; [reflexivity|].
      rewrite Hc, (div_succ_other r S) by assumption. lia.
Qed.

(** What the code does: with a non-empty column list and a positive page
    size, a result set of [R] rows is rendered [R / S + 1] times (the
    quotient rounded down): the page after the last full one is always
    rendered, rows or no rows. *)
Lemma renderResultSet_count (cfg : config) (rs : resultSet) (cols : list string) :
  (0 < pageSize cfg)%Z ->
  Columns rs = Some cols -> cols <> [] ->
  (Z.of_nat (length (rowData rs)) < 2 ^ 63)%Z ->
  exists evs,
    renderResultSet cfg rs = Some (evs, true)
    /\ Z.of_nat (count_render evs)
       = (Z.of_nat (length (rowData rs)) / pageSize cfg + 1)%Z.
Proof.
  intros HS Hcols Hne Hbound. unfold renderResultSet. rewrite Hcols.
  destruct (rowLoop_renders (pageSize cfg) cols HS (rowData rs) 0%Z [])
    as (evs & t & -> & Hc); [lia | lia |].
  eexists. split; [reflexivity|].
  destruct cols as [|c cols]; [contradiction|]. cbn [length Nat.ltb Nat.leb andb].
  rewrite !count_render_app, count_render_summary. cbn [count_render].
  rewrite !Nat2Z.inj_add, Hc. simpl (0 / _)%Z. rewrite Z.add_0_l.
  rewrite Zdiv.Zdiv_0_l. lia.
Qed.

(** C4: a result set with the column [x] and no row is rendered once (a
    table with no row), where the specification has no call of [Render]; with page
    size 2, two rows are rendered twice (the full page, then a table with
    no row), where the specification has one call. *)
Theorem render_count_extra_page :
  renderResultSet default_cfg
    (mkResultSet (Some ["x"]) [] None None)
  = Some ([Render ["x"] []; WFlush], true)
  /\ renderResultSet (mkConfig ";|^go" default_re false 2)
       (mkResultSet (Some ["x"]) [[VOther "1"]; [VOther "2"]] None None)
     = Some ([Render ["x"] [["1"]; ["2"]]; Render ["x"] []; WFlush], true).
Proof. split; reflexivity. Qed.

(** The text of the summary line, as [summary] builds it: it is the text
    between parentheses; the count of rows affected is followed by [rows affected]
    when it is 2 or more and by [row affected] otherwise, so for 0 as for
    1; the return status follows it after a comma on the same line; and
    there is no line when neither is reported. *)
Theorem summary_line :
  summary None None = []
  /\ summary (Some 1%Z) None = [WOut ("(1 row affected)" +++ nl)]
  /\ summary (Some 0%Z) None = [WOut ("(0 row affected)" +++ nl)]
  /\ summary (Some 3%Z) (Some 0%Z) = [WOut ("(3 rows affected, return status = 0)" +++ nl)]
  /\ (forall n : Z,
        summary (Some n) None
        = [WOut ("(" +++ (fmt_d n +++ (if (1 <? n)%Z then " rows affected"
                                       else " row affected")) +++ ")" +++ nl)])
  /\ (forall s : Z,
        summary None (Some s)
        = [WOut ("(" +++ ("return status = " +++ fmt_d s) +++ ")" +++ nl)])
  /\ (forall n s : Z,
        summary (Some n) (Some s)
        = [WOut ("(" +++ (((fmt_d n +++ (if (1 <? n)%Z then " rows affected"
                                         else " row affected")) +++ ", ")
                          +++ "return status = " +++ fmt_d s) +++ ")" +++ nl)]).
Proof.
  repeat split; try reflexivity; intros; unfold summary;
    destruct (1 <? n)%Z; reflexivity.
Qed.

(** At 0 the line reads [0 row affected], not [0 rows affected]. *)
Lemma summary_zero_singular :
  summary (Some 0%Z) None = [WOut ("(0 row affected)" +++ nl)]
  /\ summary (Some 0%Z) None <> [WOut ("(0 rows affected)" +++ nl)].
Proof. split; [reflexivity | discriminate]. Qed.

End RenderFacts.

(** ** Scenarios *)

Module Scenarios.

Import FileFacts InteractiveFacts.

(** The script [select 1], a newline, and the end of the file. *)
Lemma ReadBatch_unterminated_EOF_witness :
  "select 1" +++ nl <> ""
  /\ Forall (fun l => MatchString (";|^go" +++ "$") l = false)
       (split_lines ("select 1" +++ nl))
  /\ exists batch evs,
      File.ReadBatch default_cfg ";|^go" (File.mkReader ("select 1" +++ nl) io_EOF)
      = Some ((batch, Some io_EOF), File.mkReader "" io_EOF, evs)
      /\ batch = String.concat nl (split_lines ("select 1" +++ nl))
      /\ batch <> ""
      /\ File.ReadBatch default_cfg ";|^go" (File.mkReader "" io_EOF)
         = Some (("", Some io_EOF), File.mkReader "" io_EOF, []).
Proof.
  split; [discriminate|]. split; [repeat constructor|].
  apply (ReadBatch_unterminated_EOF default_cfg ";|^go" ("select 1" +++ nl));
    [discriminate | repeat constructor].
Defined.

(** C3 as stated fails: on that script [ReadBatch] returns the text with
    the error [io.EOF], not with a nil error. *)
Lemma ReadBatch_unterminated_not_successful :
  File.ReadBatch default_cfg ";|^go" (File.mkReader ("select 1" +++ nl) io_EOF)
  = Some (("select 1" +++ nl, Some io_EOF), File.mkReader "" io_EOF, [])
  /\ ~ exists batch r' evs,
        File.ReadBatch default_cfg ";|^go" (File.mkReader ("select 1" +++ nl) io_EOF)
        = Some ((batch, None), r', evs).
Proof.
  split; [reflexivity|]. intros (batch & r' & evs & H). discriminate H.
Qed.

(** [main] on that script: the pending text is not submitted, the loop
    ends without a word. *)
Lemma unterminated_script_not_submitted :
  toy_main (fun _ => inr (LastResultSet one_row)) default_cfg 5
    (File.mkReader ("select 1" +++ nl) io_EOF)
  = ([], Some (BreakInput, File.mkReader "" io_EOF, [])).
Proof. reflexivity. Qed.

(** The user types [\b;]. *)
Lemma control_command_dispatch_witness :
  ReadBatch default_cfg (terminator default_cfg) (toy_env [])
    (Interactive.mkReader [("\b;", None)] "")
  = Some (("\b", None), Interactive.mkReader [] "SRV",
          [SelectValue "select @@servername"; SetPrompt "SRV.master 1 $ ";
           SaveHistory "\b"])
  /\ main_body toyConn (toy_query (fun _ => inr (LastResultSet one_row)))
       toy_begin toy_commit toy_rollback toy_env default_cfg
       (Interactive.mkReader [("\b;", None)] "") []
     = Some ([SelectValue "select @@servername"; SetPrompt "SRV.master 1 $ ";
              SaveHistory "\b"] ++ [EvBegin],
             ContinueInput, Interactive.mkReader [] "SRV", toy_begin []).
Proof.
  split; [reflexivity|].
  exact (proj1 (proj1 (@control_command_dispatch toyConn
                  (toy_query (fun _ => inr (LastResultSet one_row)))
                  toy_begin toy_commit toy_rollback toy_env _ _ default_cfg
                  (Interactive.mkReader [("\b;", None)] "")
                  (Interactive.mkReader [] "SRV") [] "\b" None _ eq_refl) eq_refl)).
Defined.

(** A script that ends with the line [\b], without a newline: [ReadBatch]
    returns [\b] with [io.EOF], and [Begin] is called all the same. *)
Lemma control_command_before_error_witness :
  ReadBatch default_cfg (terminator default_cfg) (toy_env []) (File.mkReader "\b" io_EOF)
  = Some (("\b", Some io_EOF), File.mkReader "" io_EOF, [])
  /\ forall fuel,
      main_loop toyConn (toy_query (fun _ => inr (LastResultSet one_row)))
        toy_begin toy_commit toy_rollback toy_env default_cfg (S fuel)
        (File.mkReader "\b" io_EOF) []
      = then_loop ([] ++ [EvBegin])
          (main_loop toyConn (toy_query (fun _ => inr (LastResultSet one_row)))
             toy_begin toy_commit toy_rollback toy_env default_cfg fuel
             (File.mkReader "" io_EOF) (toy_begin [])).
Proof.
  split; [reflexivity|].
  exact (proj1 (@control_command_before_error toyConn
                  (toy_query (fun _ => inr (LastResultSet one_row)))
                  toy_begin toy_commit toy_rollback toy_env _ _ default_cfg
                  (File.mkReader "\b" io_EOF) (File.mkReader "" io_EOF) []
                  "\b" io_EOF [] eq_refl) eq_refl).
Defined.

(** The whole run on that script: [Begin], then the end of the input. *)
Lemma control_command_at_end_of_script :
  toy_main (fun _ => inr (LastResultSet one_row)) default_cfg 5
    (File.mkReader "\b" io_EOF)
  = ([EvBegin], Some (BreakInput, File.mkReader "" io_EOF, ["begin"])).
Proof. reflexivity. Qed.

(** The user types [select 1;] then [select 2;]; the session answers a
    result set after which [NextResultSet] fails. *)
Lemma next_result_set_error_returns_witness :
  ReadBatch default_cfg (terminator default_cfg) (toy_env [])
    (Interactive.mkReader [("select 1;", None); ("select 2;", None)] "")
  = Some (("select 1", None), Interactive.mkReader [("select 2;", None)] "SRV",
          [SelectValue "select @@servername"; SetPrompt "SRV.master 1 $ ";
           SaveHistory "select 1"])
  /\ advance_fails default_cfg (NextResultSetFails one_row (OtherError "boom"))
       [Render ["x"] [["1"]]; WFlush]
  /\ forall fuel,
      main_loop toyConn
        (toy_query (fun _ => inr (NextResultSetFails one_row (OtherError "boom"))))
        toy_begin toy_commit toy_rollback toy_env default_cfg (S fuel)
        (Interactive.mkReader [("select 1;", None); ("select 2;", None)] "") []
      = ([SelectValue "select @@servername"; SetPrompt "SRV.master 1 $ ";
          SaveHistory "select 1"]
         ++ EvQuery "select 1" :: [Render ["x"] [["1"]]; WFlush],
         Some (ReturnMain, Interactive.mkReader [("select 2;", None)] "SRV",
               ["select 1"])).
Proof.
  split; [reflexivity|].
  assert (H : advance_fails default_cfg
                (NextResultSetFails one_row (OtherError "boom"))
                [Render ["x"] [["1"]]; WFlush])
    by (constructor; reflexivity).
  split; [exact H|].
  apply (@next_result_set_error_returns toyConn
           (toy_query (fun _ => inr (NextResultSetFails one_row (OtherError "boom"))))
           toy_begin toy_commit toy_rollback toy_env _ _ default_cfg
           (Interactive.mkReader [("select 1;", None); ("select 2;", None)] "")
           (Interactive.mkReader [("select 2;", None)] "SRV") [] ["select 1"]
           "select 1" (NextResultSetFails one_row (OtherError "boom")));
    [reflexivity | discriminate | discriminate | discriminate | reflexivity | exact H].
Defined.

(** C6 as stated fails: after the failure of [NextResultSet] on the first
    batch, [main] has returned; [select 2;] is still unread and was never
    submitted, however much fuel the loop is given. *)
Lemma next_result_set_error_ends_main :
  toy_main (fun _ => inr (NextResultSetFails one_row (OtherError "boom"))) default_cfg 5
    (Interactive.mkReader [("select 1;", None); ("select 2;", None)] "")
  = ([SelectValue "select @@servername"; SetPrompt "SRV.master 1 $ ";
      SaveHistory "select 1"; EvQuery "select 1"; Render ["x"] [["1"]]; WFlush],
     Some (ReturnMain, Interactive.mkReader [("select 2;", None)] "SRV", ["select 1"]))
  /\ ~ In (EvQuery "select 2")
         (fst (toy_main (fun _ => inr (NextResultSetFails one_row (OtherError "boom")))
                 default_cfg 5
                 (Interactive.mkReader [("select 1;", None); ("select 2;", None)] ""))).
Proof.
  split; [reflexivity|].
  intros H. vm_compute in H.
  repeat (destruct H as [H|H]; [discriminate H|]). exact H.
Qed.

(** The user types [select 1], interrupts, then types [select 2;]. *)
Lemma interrupt_discards_buffer_witness :
  Forall (fun l => MatchString (";|^go" +++ "$") l = false) ["select 1"]
  /\ (exists evs sv',
        Interactive.ReadBatch default_cfg ";|^go" (toy_env [])
          (Interactive.mkReader
             (typed ["select 1"] ++ ("", Some ErrInterrupt) :: [("select 2;", None)]) "")
        = emit evs
            (Interactive.ReadBatch default_cfg ";|^go" (toy_env [])
               (Interactive.mkReader [("select 2;", None)] sv')))
  /\ Interactive.ReadBatch default_cfg ";|^go" (toy_env [])
       (Interactive.mkReader
          (typed ["select 1"] ++ ("", Some ErrInterrupt) :: [("select 2;", None)]) "")
     = (("select 2", None), Interactive.mkReader [] "SRV",
        [SelectValue "select @@servername"; SetPrompt "SRV.master 1 $ ";
         SetPrompt "SRV.master 2 $ "; SetPrompt "SRV.master 1 $ ";
         SaveHistory "select 2"]).
Proof.
  assert (H : Forall (fun l => MatchString (";|^go" +++ "$") l = false) ["select 1"])
    by (repeat constructor).
  split; [exact H|]. split; [|reflexivity].
  exact (proj2 (interrupt_discards_buffer default_cfg ";|^go" (toy_env [])
                  ["select 1"] "" [("select 2;", None)] "" H)).
Defined.

End Scenarios.

(** * Further properties of the code *)

(** ** The scripted source, line by line *)

Module FileMore.

Import File FileFacts.

Lemma emit_app {R : Type} (a : list event) (x : readResult R) be r evs :
  x = (be, r, evs) -> emit a x = (be, r, a ++ evs).
Proof. intros ->. reflexivity. Qed.

(** [ReadBatch] never gives bytes back, and it moves on unless it returns
    the buffer it was given together with an error. *)
Lemma ReadBatch_loop_progress (cfg : config) (t : string) :
  forall fuel r batch0 lineNo b e r' evs,
    ReadBatch_loop fuel cfg t r batch0 lineNo = Some ((b, e), r', evs) ->
    read_err r' = read_err r
    /\ String.length (pending r') <= String.length (pending r)
    /\ (String.length (pending r') < String.length (pending r)
        \/ (b = batch0 /\ e <> None)).
Proof.
  induction fuel as [|fuel IH]; intros r batch0 lineNo b e r' evs H; [discriminate|].
  simpl in H. unfold ReadString in H.
  destruct (cut_line (pending r)) as [[line rest]|] eqn:E.
  - apply cut_line_Some in E. destruct E as (_ & Hne & Hlen).
    destruct line as [|c line]; [contradiction|]. simpl in Hlen.
    destruct (processLine (re cfg) t (String c line) batch0) as [batch' found].
    destruct found.
    + injection H as <- <- <- <-. simpl. repeat split; lia.
    + destruct (ReadBatch_loop fuel cfg t _ batch' _) as [[[[b1 e1] r1] evs1]|] eqn:E1;
        [|discriminate].
      simpl in H. injection H as <- <- <- <-.
      apply IH in E1. simpl in E1. destruct E1 as (He & Hle & _).
      repeat split; [assumption | lia | left; lia].
  - destruct (negb (error_eqb (read_err r) io_EOF) || String.eqb (pending r) "") eqn:Estop.
    + injection H as <- <- <- <-. simpl.
      repeat split; [lia | right; split; [reflexivity | discriminate]].
    + apply orb_false_elim in Estop. destruct Estop as [_ Hne].
      destruct (pending r) as [|c p] eqn:Ep; [discriminate|].
      destruct (processLine (re cfg) t (String c p) batch0) as [batch' found].
      destruct found.
      * injection H as <- <- <- <-. simpl. repeat split; [lia | left; lia].
      * destruct (ReadBatch_loop fuel cfg t _ batch' _) as [[[[b1 e1] r1] evs1]|] eqn:E1;
          [|discriminate].
        simpl in H. injection H as <- <- <- <-.
        apply IH in E1. simpl in E1. destruct E1 as (He & Hle & _).
        repeat split; [assumption | lia | left; simpl; lia].
Qed.

Lemma append_empty_r (s : string) : s +++ "" = s.
Proof. induction s as [|c s IH]; simpl; [reflexivity | now rewrite IH]. Qed.

Lemma concat_empty_cons (l : string) (ls : list string) :
  String.concat "" (l :: ls) = l +++ String.concat "" ls.
Proof.
  destruct ls as [|l' ls]; simpl; [now rewrite append_empty_r | reflexivity].
Qed.

(** Cutting a script into lines loses nothing. *)
Lemma concat_split_lines (s : string) : String.concat "" (split_lines s) = s.
Proof.
  induction s as [|c s IH]; [reflexivity|].
  cbn [split_lines]. destruct (Ascii.eqb_spec c (ascii_of_nat 10)) as [->|_].
  - rewrite concat_empty_cons, IH. reflexivity.
  - destruct (split_lines s) as [|l ls] eqn:E.
    + simpl in IH. subst s. reflexivity.
    + rewrite concat_empty_cons. rewrite concat_empty_cons in IH.
      simpl. now rewrite IH.
Qed.

Lemma split_lines_cons (s l : string) (ls : list string) :
  split_lines s = l :: ls ->
  (cut_line s = Some (l, String.concat "" ls) /\ split_lines (String.concat "" ls) = ls)
  \/ (cut_line s = None /\ l = s /\ ls = [] /\ s <> "").
Proof.
  intros H. destruct (cut_line s) as [[l' rest]|] eqn:E.
  - left. pose proof (cut_line_Some _ _ _ E) as (Hs & _ & _).
    rewrite H in Hs. injection Hs as <- ->.
    rewrite concat_split_lines. split; reflexivity.
  - right. assert (Hne : s <> "") by (intros ->; discriminate H).
    rewrite (cut_line_None _ E Hne) in H. injection H as <- <-. auto.
Qed.

(** The loop up to the first line on which the terminator matches. *)
Lemma script_loop_first_match (cfg : config) (t : string) (e : error) :
  forall pre fuel s line post batch0 lineNo,
    String.length s + 2 <= fuel ->
    split_lines s = pre ++ line :: post ->
    Forall (fun l => MatchString (t +++ "$") l = false) pre ->
    MatchString (t +++ "$") line = true ->
    post <> [] \/ e = io_EOF ->
    ReadBatch_loop fuel cfg t (mkReader s e) batch0 lineNo
    = Some ((joined batch0 pre +++ ReplaceAllString_empty (re cfg) line, None),
            mkReader (String.concat "" post) e,
            if echoInput cfg then echo_from lineNo pre else []).
Proof.
  induction pre as [|l pre IH];
    intros fuel s line post batch0 lineNo Hfuel Hs Hall Hm Hpost;
    (destruct fuel as [|fuel]; [lia|]); simpl app in Hs.
  - cbn [ReadBatch_loop]. unfold ReadString. cbn [pending read_err].
    destruct (split_lines_cons _ _ _ Hs) as [(Hc & _) | (Hc & -> & -> & Hne)];
      rewrite Hc.
    + cbv iota beta. unfold processLine. rewrite Hm. cbn [negb].
      destruct (echoInput cfg); reflexivity.
    + destruct Hpost as [Hp | ->]; [contradiction|].
      cbn [error_eqb negb orb].
      destruct s as [|c s]; [contradiction|].
      change (String.eqb (String c s) "") with false. cbv iota beta.
      unfold processLine. rewrite Hm. cbn [negb].
      destruct (echoInput cfg); reflexivity.
  - inversion Hall as [|? ? Hl Hrest]; subst.
    cbn [ReadBatch_loop]. unfold ReadString. cbn [pending read_err].
    destruct (split_lines_cons _ _ _ Hs) as [(Hc & Hsp) | (_ & _ & Hnil & _)];
      [|destruct pre; discriminate Hnil].
    rewrite Hc. cbv iota beta.
    pose proof (cut_line_Some _ _ _ Hc) as (_ & Hne & Hlen).
    destruct l as [|c l]; [contradiction|]. simpl in Hlen.
    unfold processLine at 1. rewrite Hl. cbn [negb].
    assert (Hstep : forall b,
      ReadBatch_loop fuel cfg t (mkReader (String.concat "" (pre ++ line :: post)) e)
        b (int_add lineNo 1)
      = Some ((joined b pre +++ ReplaceAllString_empty (re cfg) line, None),
              mkReader (String.concat "" post) e,
              if echoInput cfg then echo_from (int_add lineNo 1) pre else [])).
    { intros b. apply IH; try assumption. lia. }
    destruct (String.eqb batch0 "") eqn:Eb; cbv iota beta; rewrite Hstep;
      cbn [option_map emit joined fold_left]; rewrite Eb;
      destruct (echoInput cfg); reflexivity.
Qed.

(** [fileBatchReader.ReadBatch] stops at the first line on which the
    terminator matches: the batch is the earlier lines joined by newlines,
    followed by that line as [re] strips it; the error is nil; the script
    after that line is left unread; and with [-e] each earlier line is
    echoed with its number, the matching line is not. *)
Theorem script_first_match (cfg : config) (t : string) (e : error) (s : string)
    (pre : list string) (line : string) (post : list string) :
  split_lines s = pre ++ line :: post ->
  Forall (fun l => MatchString (t +++ "$") l = false) pre ->
  MatchString (t +++ "$") line = true ->
  post <> [] \/ e = io_EOF ->
  ReadBatch cfg t (mkReader s e)
  = Some ((joined "" pre +++ ReplaceAllString_empty (re cfg) line, None),
          mkReader (String.concat "" post) e,
          if echoInput cfg then echo_from 1%Z pre else []).
Proof.
  intros Hs Hall Hm Hpost. unfold ReadBatch. cbn [pending].
  apply script_loop_first_match; try assumption. lia.
Qed.

Lemma split_lines_nil (s : string) : split_lines s = [] -> s = "".
Proof. intros H. rewrite <- (concat_split_lines s), H. reflexivity. Qed.

Lemma error_eqb_EOF (e : error) : e <> io_EOF -> error_eqb e io_EOF = false.
Proof. destruct e; intros H; try reflexivity. contradiction. Qed.

(** The loop on a script without a matching line whose reading ends in an
    error that is not [io.EOF]. *)
Lemma ReadBatch_loop_read_error (cfg : config) (t : string) (e : error) :
  e <> io_EOF ->
  forall pre fuel s partial batch0 lineNo,
    String.length s + 2 <= fuel ->
    split_lines s = pre ++ partial ->
    partial = [] \/ (exists last, partial = [last] /\ cut_line last = None) ->
    Forall (fun l => cut_line l <> None) pre ->
    Forall (fun l => MatchString (t +++ "$") l = false) pre ->
    ReadBatch_loop fuel cfg t (mkReader s e) batch0 lineNo
    = Some ((joined batch0 pre, Some e), mkReader "" e,
            if echoInput cfg then echo_from lineNo pre else []).
Proof.
  intros He.
  induction pre as [|l pre IH];
    intros fuel s partial batch0 lineNo Hfuel Hs Hpart Hcomplete Hall;
    (destruct fuel as [|fuel]; [lia|]); simpl app in Hs.
  - cbn [ReadBatch_loop]. unfold ReadString. cbn [pending read_err].
    assert (Hc : cut_line s = None).
    { destruct Hpart as [-> | (last & -> & Hlast)].
      - apply split_lines_nil in Hs. now subst s.
      - pose proof (concat_split_lines s) as Hcs. rewrite Hs in Hcs.
        simpl in Hcs. now subst s. }
    rewrite Hc. cbv iota beta. rewrite (error_eqb_EOF _ He). cbn [negb orb].
    destruct (echoInput cfg); reflexivity.
  - inversion Hall as [|? ? Hl Hrest]; subst.
    inversion Hcomplete as [|? ? Hcl Hcrest]; subst.
    cbn [ReadBatch_loop]. unfold ReadString. cbn [pending read_err].
    destruct (split_lines_cons _ _ _ Hs) as [(Hc & Hsp) | (Hc & -> & Hnil & Hne)].
    + rewrite Hc. cbv iota beta.
      pose proof (cut_line_Some _ _ _ Hc) as (_ & Hne & Hlen).
      destruct l as [|c l]; [contradiction|]. simpl in Hlen.
      unfold processLine at 1. rewrite Hl. cbn [negb].
      assert (Hstep : forall b,
        ReadBatch_loop fuel cfg t (mkReader (String.concat "" (pre ++ partial)) e)
          b (int_add lineNo 1)
        = Some ((joined b pre, Some e), mkReader "" e,
                if echoInput cfg then echo_from (int_add lineNo 1) pre else [])).
      { intros b. apply (IH fuel _ partial); try assumption. lia. }
      destruct (String.eqb batch0 "") eqn:Eb; cbv iota beta; rewrite Hstep;
        cbn [option_map emit joined fold_left]; rewrite Eb;
        destruct (echoInput cfg); reflexivity.
    + contradiction.
Qed.

(** When the reading of the script fails with an error other than
    [io.EOF] before the terminator matched, [ReadBatch] returns that error
    with the buffer of the complete lines [pre] read so far (each with its
    newline); the bytes that came with the error, a last line without its
    newline, are dropped. *)
Theorem ReadBatch_read_error (cfg : config) (t : string) (e : error) (s : string)
    (pre partial : list string) :
  e <> io_EOF ->
  split_lines s = pre ++ partial ->
  partial = [] \/ (exists last, partial = [last] /\ cut_line last = None) ->
  Forall (fun l => cut_line l <> None) pre ->
  Forall (fun l => MatchString (t +++ "$") l = false) pre ->
  ReadBatch cfg t (mkReader s e)
  = Some ((joined "" pre, Some e), mkReader "" e,
          if echoInput cfg then echo_from 1%Z pre else []).
Proof.
  intros He Hs Hpart Hcomplete Hall. unfold ReadBatch. cbn [pending].
  apply (ReadBatch_loop_read_error cfg t e He pre _ s partial); try assumption. lia.
Qed.

(** What [ReadBatch] prints is never a submission. *)
Lemma ReadBatch_loop_quiet (cfg : config) (t : string) :
  forall fuel r batch0 lineNo be r' evs,
    ReadBatch_loop fuel cfg t r batch0 lineNo = Some (be, r', evs) ->
    submitted evs = [].
Proof.
  induction fuel as [|fuel IH]; intros r batch0 lineNo be r' evs H; [discriminate|].
  simpl in H. destruct (ReadString r) as [[line err] r1].
  destruct (match err with
            | Some e => negb (error_eqb e io_EOF) || String.eqb line ""
            | None => false
            end).
  - injection H as <- <- <-. reflexivity.
  - destruct (processLine (re cfg) t line batch0) as [batch' found].
    destruct found.
    + injection H as <- <- <-. reflexivity.
    + destruct (ReadBatch_loop fuel cfg t r1 batch' _) as [[[be1 r2] evs1]|] eqn:E1;
        [|discriminate].
      simpl in H. injection H as <- <- <-.
      apply IH in E1. destruct (echoInput cfg); simpl; assumption.
Qed.

End FileMore.

(** ** The interactive source, call by call *)

Module InteractiveMore.

Import Interactive InteractiveFacts.

Lemma emit_result {R : Type} (a : list event) (x : readResult R) be r evs :
  emit a x = (be, r, evs) -> exists evs', x = (be, r, evs') /\ evs = a ++ evs'.
Proof.
  destruct x as [[be' r'] evs']. simpl. intros H. injection H as <- <- <-. eauto.
Qed.

Lemma saved_history_app (a b : list event) :
  saved_history (a ++ b) = saved_history a ++ saved_history b.
Proof.
  induction a as [|e a IH]; [reflexivity|].
  destruct e; simpl; rewrite IH; reflexivity.
Qed.

Lemma count_select_app (a b : list event) :
  count_select (a ++ b) = count_select a + count_select b.
Proof.
  induction a as [|e a IH]; [reflexivity|].
  destruct e; simpl; rewrite IH; reflexivity.
Qed.

Lemma submitted_app (a b : list event) :
  submitted (a ++ b) = submitted a ++ submitted b.
Proof.
  induction a as [|e a IH]; [reflexivity|].
  destruct e; simpl; rewrite IH; reflexivity.
Qed.

(** What the prompt switch does to a trace: lookups only. *)
Lemma prompt_of_events (cv : connView) (sv : string) (lineNo : Z) :
  forall sv' p evs, prompt_of cv sv lineNo = (sv', p, evs) ->
  saved_history evs = [] /\ submitted evs = []
  /\ count_select evs = (if no_lookup cv then 0 else if String.eqb sv "" then 1 else 0)
  /\ (no_lookup cv = false ->
      sv' = if String.eqb sv "" then match servername cv with Some v => v | None => sv end
            else sv).
Proof.
  intros sv' p evs H. unfold prompt_of, no_lookup in *.
  destruct (String.eqb (env_serverType cv) "ASE"
            || String.eqb (env_serverType cv) "sql server") eqn:E1.
  - simpl. destruct (String.eqb sv ""); injection H as <- <- <-; simpl; auto.
  - simpl. destruct (String.eqb (env_serverType cv) "SQL Anywhere") eqn:E2.
    + destruct (String.eqb sv ""); injection H as <- <- <-; simpl; auto.
    + injection H as <- <- <-. simpl. repeat split; discriminate.
Qed.

(** The ways [ReadBatch] ends: with an error it returns no text and has
    saved nothing to the history, and the error is never the interrupt;
    with a batch it has saved just that batch.  It consumes input unless
    none is left, and then returns [io.EOF]. *)
Lemma ReadBatch_loop_ends (cfg : config) (t : string) (cv : connView) :
  forall inp sv batch0 lineNo b e r' evs,
    ReadBatch_loop cfg t cv inp sv batch0 lineNo = ((b, e), r', evs) ->
    submitted evs = []
    /\ match e with
       | Some err => b = "" /\ err <> ErrInterrupt /\ saved_history evs = []
       | None => saved_history evs = [b]
       end
    /\ length (input r') <= length inp
    /\ (length (input r') < length inp \/ (b = "" /\ e = Some io_EOF)).
Proof.
  induction inp as [|[line err] rest IH]; intros sv batch0 lineNo b e r' evs H;
    cbn [ReadBatch_loop] in H;
    destruct (prompt_of cv sv lineNo) as [[sv' p] evs0] eqn:Ep;
    pose proof (prompt_of_events _ _ _ _ _ _ Ep) as (Hh & Hs & _).
  - injection H as <- <- <- <-.
    rewrite submitted_app, saved_history_app, Hs, Hh. simpl.
    repeat split; try discriminate; auto.
  - destruct err as [err|].
    + destruct err.
      1,3,4: injection H as <- <- <- <-;
        rewrite submitted_app, saved_history_app, Hs, Hh; simpl;
        repeat split; try discriminate; auto.
      apply emit_result in H. destruct H as (evs' & H & ->).
      apply IH in H. destruct H as (H1 & H2 & H3 & _).
      rewrite !submitted_app, Hs, H1. split; [reflexivity|].
      split.
      * destruct e; rewrite !saved_history_app, Hh; simpl; assumption.
      * simpl. lia.
    + destruct (processLine (re cfg) t line batch0) as [batch' found].
      destruct found.
      * injection H as <- <- <- <-.
        rewrite !submitted_app, !saved_history_app, Hs, Hh. simpl.
        repeat split; auto.
      * apply emit_result in H. destruct H as (evs' & H & ->).
        apply IH in H. destruct H as (H1 & H2 & H3 & _).
        rewrite !submitted_app, Hs, H1. split; [reflexivity|].
        split.
        -- destruct e; rewrite !saved_history_app, Hh; simpl; assumption.
        -- simpl. lia.
Qed.

(** [readLineBatchReader.ReadBatch] ends in one of two ways.  With an
    error: the batch is empty whatever had been typed, nothing was saved
    to the history, and the error is never [readline.ErrInterrupt], which
    does not leave [ReadBatch].  With a batch: the history received that
    batch, once. *)
Theorem ReadBatch_error_or_saved (cfg : config) (t : string) (cv : connView)
    (r r' : readLineBatchReader) (b : string) (e : option error) (evs : list event) :
  ReadBatch cfg t cv r = ((b, e), r', evs) ->
  match e with
  | Some err => b = "" /\ err <> ErrInterrupt /\ saved_history evs = []
  | None => saved_history evs = [b]
  end.
Proof.
  intros H. unfold ReadBatch in H. apply ReadBatch_loop_ends in H. tauto.
Qed.

(** Lines without the terminator, then a line with it. *)
Lemma typed_loop_first_match (cfg : config) (t : string) (cv : connView)
    (line : string) (rest : list (string * option error)) :
  MatchString (t +++ "$") line = true ->
  forall pre sv batch0 lineNo,
    Forall (fun l => MatchString (t +++ "$") l = false) pre ->
    exists evs sv',
      ReadBatch_loop cfg t cv (typed pre ++ (line, None) :: rest) sv batch0 lineNo
      = ((joined batch0 pre +++ ReplaceAllString_empty (re cfg) line, None),
         mkReader rest sv', evs).
Proof.
  intros Hm. induction pre as [|l pre IH]; intros sv batch0 lineNo Hall.
  - cbn [typed map app ReadBatch_loop].
    destruct (prompt_of cv sv lineNo) as [[sv' p] evs0].
    unfold processLine. rewrite Hm. cbn [negb]. eauto.
  - inversion Hall as [|? ? Hl Hrest]; subst.
    change (typed (l :: pre) ++ (line, None) :: rest)
      with ((l, @None error) :: (typed pre ++ (line, None) :: rest)).
    cbn [ReadBatch_loop].
    destruct (prompt_of cv sv lineNo) as [[sv1 p] evs1].
    unfold processLine at 1. rewrite Hl. cbn [negb].
    destruct (String.eqb batch0 "") eqn:Eb;
      match goal with
      | |- context [ReadBatch_loop cfg t cv _ ?s ?b ?n] =>
          destruct (IH s b n Hrest) as (evs & sv' & ->)
      end;
      cbn [emit joined fold_left]; rewrite Eb; eauto.
Qed.

(** [readLineBatchReader.ReadBatch] stops at the first line on which the
    terminator matches: the batch is the lines typed before it joined by
    newlines, followed by that line as [re] strips it, and what is typed
    after it is left for the next call. *)
Theorem typed_first_match (cfg : config) (t : string) (cv : connView)
    (pre : list string) (line : string) (rest : list (string * option error))
    (sv : string) :
  Forall (fun l => MatchString (t +++ "$") l = false) pre ->
  MatchString (t +++ "$") line = true ->
  exists evs sv',
    ReadBatch cfg t cv (mkReader (typed pre ++ (line, None) :: rest) sv)
    = ((joined "" pre +++ ReplaceAllString_empty (re cfg) line, None),
       mkReader rest sv', evs).
Proof.
  intros Hall Hm. unfold ReadBatch. cbn [input server].
  now apply typed_loop_first_match.
Qed.

Lemma count_prompt_app (a b : list event) :
  count_prompt (a ++ b) = count_prompt a + count_prompt b.
Proof.
  induction a as [|e a IH]; [reflexivity|].
  destruct e; simpl; rewrite IH; reflexivity.
Qed.

Lemma prompt_of_prompts (cv : connView) (sv : string) (lineNo : Z) :
  forall sv' p evs, prompt_of cv sv lineNo = (sv', p, evs) -> count_prompt evs = 0.
Proof.
  intros sv' p evs H. unfold prompt_of in H.
  destruct (String.eqb (env_serverType cv) "ASE"
            || String.eqb (env_serverType cv) "sql server").
  - destruct (String.eqb sv ""); injection H as <- <- <-; reflexivity.
  - destruct (String.eqb (env_serverType cv) "SQL Anywhere").
    + destruct (String.eqb sv ""); injection H as <- <- <-; reflexivity.
    + injection H as <- <- <-. reflexivity.
Qed.

(** The label and the lookup of one turn of the prompt switch. *)
Lemma prompt_of_label (cv : connView) (sv : string) (lineNo : Z) :
  forall sv' p evs, prompt_of cv sv lineNo = (sv', p, evs) ->
  (no_lookup cv = true \/ sv <> "" ->
     count_select evs = 0 /\ (no_lookup cv = true \/ sv' <> ""))
  /\ (forall v, servername cv = Some v -> v <> "" ->
      count_select evs = 0 \/ (count_select evs = 1 /\ sv' <> ""))
  /\ (no_lookup cv = false -> sv = "" ->
      servername cv = None \/ servername cv = Some "" ->
      count_select evs = 1 /\ sv' = "").
Proof.
  intros sv' p evs Ep.
  pose proof (prompt_of_events _ _ _ _ _ _ Ep) as (_ & _ & Hc & Hsv).
  split; [|split].
  - intros [Hn | Hne].
    + rewrite Hc, Hn. auto.
    + destruct (no_lookup cv) eqn:En; [rewrite Hc; auto|].
      pose proof Hne as Hne'. apply String.eqb_neq in Hne'.
      rewrite Hc, (Hsv eq_refl), Hne'. auto.
  - intros v Hv Hne. rewrite Hc.
    destruct (no_lookup cv) eqn:En; [auto|].
    destruct (String.eqb sv "") eqn:Es; [|auto].
    right. split; [reflexivity|]. rewrite (Hsv eq_refl), Hv. assumption.
  - intros Hn -> Hv. rewrite Hc, Hn, (Hsv Hn). simpl.
    destruct Hv as [-> | ->]; auto.
Qed.

Lemma lookups_ok_step (cv : connView) (sv sv' p : string) (lineNo : Z)
    (evs0 evs' : list event) (r' : readLineBatchReader) :
  prompt_of cv sv lineNo = (sv', p, evs0) ->
  lookups_ok cv sv' evs' (server r') ->
  lookups_ok cv sv ((evs0 ++ [SetPrompt p]) ++ evs') (server r').
Proof.
  intros Ep (I1 & I2 & I3).
  pose proof (prompt_of_label _ _ _ _ _ _ Ep) as (L1 & L2 & L3).
  pose proof (prompt_of_prompts _ _ _ _ _ _ Ep) as Hp.
  unfold lookups_ok. rewrite !count_select_app, !count_prompt_app, Hp. simpl.
  split; [|split].
  - intros Hk. destruct (L1 Hk) as [-> Hk']. rewrite (I1 Hk'). reflexivity.
  - intros v Hv Hne. destruct (L2 v Hv Hne) as [-> | [-> Hsv']].
    + specialize (I2 v Hv Hne). lia.
    + rewrite (I1 (or_intror Hsv')). lia.
  - intros Hn Hsv Hv. destruct (L3 Hn Hsv Hv) as [-> Hsv'].
    destruct (I3 Hn Hsv' Hv) as [-> ->]. split; [lia | reflexivity].
Qed.

Lemma lookups_ok_last (cv : connView) (sv sv' p : string) (lineNo : Z)
    (evs0 evs1 : list event) :
  prompt_of cv sv lineNo = (sv', p, evs0) ->
  count_select evs1 = 0 -> count_prompt evs1 = 0 ->
  lookups_ok cv sv ((evs0 ++ [SetPrompt p]) ++ evs1) sv'.
Proof.
  intros Ep H1 H2.
  pose proof (prompt_of_label _ _ _ _ _ _ Ep) as (L1 & L2 & L3).
  pose proof (prompt_of_prompts _ _ _ _ _ _ Ep) as Hp.
  unfold lookups_ok. rewrite !count_select_app, !count_prompt_app, Hp, H1, H2. simpl.
  split; [|split].
  - intros Hk. destruct (L1 Hk) as [-> _]. reflexivity.
  - intros v Hv Hne. destruct (L2 v Hv Hne) as [-> | [-> _]]; lia.
  - intros Hn Hsv Hv. destruct (L3 Hn Hsv Hv) as [-> ->]. split; reflexivity.
Qed.

(** The lookups of one call, by the state of the [server] label. *)
Lemma ReadBatch_loop_lookups (cfg : config) (t : string) (cv : connView) :
  forall inp sv batch0 lineNo be r' evs,
    ReadBatch_loop cfg t cv inp sv batch0 lineNo = (be, r', evs) ->
    lookups_ok cv sv evs (server r').
Proof.
  induction inp as [|[line err] rest IH]; intros sv batch0 lineNo be r' evs H;
    cbn [ReadBatch_loop] in H;
    destruct (prompt_of cv sv lineNo) as [[sv' p] evs0] eqn:Ep.
  - injection H as <- <- <-.
    rewrite <- (app_nil_r (evs0 ++ [SetPrompt p])). cbn [server].
    eapply lookups_ok_last; [exact Ep | reflexivity | reflexivity].
  - destruct err as [err|].
    + destruct err.
      1,3,4: injection H as <- <- <-;
        rewrite <- (app_nil_r (evs0 ++ [SetPrompt p])); cbn [server];
        eapply lookups_ok_last; [exact Ep | reflexivity | reflexivity].
      apply emit_result in H. destruct H as (evs' & H & ->).
      apply IH in H. eapply lookups_ok_step; eassumption.
    + destruct (processLine (re cfg) t line batch0) as [batch' found].
      destruct found.
      * injection H as <- <- <-. cbn [server].
        replace (evs0 ++ [SetPrompt p] ++ [SaveHistory batch'])
          with ((evs0 ++ [SetPrompt p]) ++ [SaveHistory batch'])
          by (now rewrite <- app_assoc).
        eapply lookups_ok_last; [exact Ep | reflexivity | reflexivity].
      * apply emit_result in H. destruct H as (evs' & H & ->).
        apply IH in H. eapply lookups_ok_step; eassumption.
Qed.

(** The [server] label is looked up lazily and kept.  In one call of
    [ReadBatch]: no lookup is sent when the label is already known or the
    type of the server has none; at most one is sent when the lookup
    answers a non-empty name; and when the lookup fails or answers the
    empty name it is sent again before every prompt, the label staying
    empty. *)
Theorem server_label_lookups (cfg : config) (t : string) (cv : connView)
    (r r' : readLineBatchReader) (be : string * option error) (evs : list event) :
  ReadBatch cfg t cv r = (be, r', evs) ->
  (no_lookup cv = true \/ server r <> "" -> count_select evs = 0)
  /\ (forall v, servername cv = Some v -> v <> "" -> count_select evs <= 1)
  /\ (no_lookup cv = false -> server r = "" ->
      servername cv = None \/ servername cv = Some "" ->
      count_select evs = count_prompt evs /\ server r' = "").
Proof.
  intros H. unfold ReadBatch in H. apply ReadBatch_loop_lookups in H. exact H.
Qed.

End InteractiveMore.

(** ** The whole loop *)

Lemma is_control_false (b : string) :
  is_control b = false ->
  String.eqb b "\b" = false /\ String.eqb b "\c" = false /\ String.eqb b "\r" = false.
Proof.
  unfold is_control. intros H.
  apply orb_false_elim in H. destruct H as [H H3].
  apply orb_false_elim in H. tauto.
Qed.

Lemma submitted_summary (a s : option Z) : submitted (summary a s) = [].
Proof. destruct a, s; reflexivity. Qed.

Lemma submitted_rowLoop (S : Z) (cols : list string) : forall rows r table evs t ok,
  rowLoop S cols rows r table = (evs, t, ok) -> submitted evs = [].
Proof.
  induction rows as [|vals rows IH]; intros r table evs t ok H; simpl in H.
  - injection H as <- _ _. reflexivity.
  - destruct (S =? 0)%Z; [injection H as <- _ _; reflexivity|].
    destruct (Z.rem (int_add r 1) S =? 0)%Z.
    + destruct (rowLoop S cols rows (int_add r 1) []) as [[evs1 t1] ok1] eqn:E.
      injection H as <- _ _. simpl. eapply IH; eassumption.
    + eapply IH; eassumption.
Qed.

Lemma submitted_renderResultSet (cfg : config) (rs : resultSet) evs ok :
  renderResultSet cfg rs = Some (evs, ok) -> submitted evs = [].
Proof.
  unfold renderResultSet. destruct (Columns rs) as [cols|]; [|discriminate].
  destruct (rowLoop (pageSize cfg) cols (rowData rs) 0 []) as [[evs1 t] ok1] eqn:E.
  apply submitted_rowLoop in E.
  destruct ok1; intros H; injection H as <- _; [|assumption].
  rewrite !InteractiveMore.submitted_app, E, submitted_summary.
  destruct ((0 <? length cols) && (0 <? length cols)); reflexivity.
Qed.

Lemma submitted_resultLoop (cfg : config) (rows : Rows) : forall evs f,
  resultLoop cfg rows = (evs, f) -> submitted evs = [].
Proof.
  induction rows as [rs | rs e | rs rest IH]; intros evs f H; simpl in H;
    destruct (renderResultSet cfg rs) as [[evs0 [|]]|] eqn:E;
    try (injection H as <- _; try reflexivity;
         eapply submitted_renderResultSet; eassumption).
  destruct (resultLoop cfg rest) as [evs' f'] eqn:E'.
  injection H as <- _.
  rewrite InteractiveMore.submitted_app. simpl.
  rewrite (submitted_renderResultSet _ _ _ _ E), (IH _ _ eq_refl). reflexivity.
Qed.

Section MainMore.

Variable Conn : Type.
Variable QueryContext : Conn -> string -> (error + Rows) * Conn.
Variables Begin Commit Rollback : Conn -> Conn.
Variable GetEnv : Conn -> connView.
Context {R : Type} {reader : SQLBatchReader R}.
Variable cfg : config.

Abbreviation body := (main_body Conn QueryContext Begin Commit Rollback GetEnv cfg).
Abbreviation loop := (main_loop Conn QueryContext Begin Commit Rollback GetEnv cfg).

(** A reader that always returns, and that moves on by the measure [mu]
    unless it returns no text with an error. *)
Variable mu : R -> nat.
Hypothesis reader_returns :
  forall cv r, exists res, ReadBatch cfg (terminator cfg) cv r = Some res.
Hypothesis reader_progress :
  forall cv r b e r' evs,
    ReadBatch cfg (terminator cfg) cv r = Some ((b, e), r', evs) ->
    mu r' < mu r \/ (b = "" /\ e <> None).

Lemma main_loop_ends : forall n r conn,
  mu r <= n ->
  exists tr f r' conn',
    loop (S n) r conn = (tr, Some (f, r', conn'))
    /\ (f = BreakInput \/ f = ReturnMain \/ f = PanicMain).
Proof.
  induction n as [|n IH]; intros r conn Hmu;
    cbn [main_loop]; unfold main_body;
    destruct (reader_returns (GetEnv conn) r) as [[[[b e] r'] evs] Hr];
    rewrite Hr;
    destruct (reader_progress _ _ _ _ _ _ Hr) as [Hlt | [-> He]];
    try lia.
  1,3: destruct e as [e|]; [|contradiction]; cbn [String.eqb];
       eexists _, _, _, _; split; [reflexivity | auto].
  assert (Hnext : forall evs0 c,
    exists tr f r'' conn',
      (let '(evs', res) := loop (S n) r' c in (evs0 ++ evs', res))
      = (tr, Some (f, r'', conn'))
      /\ (f = BreakInput \/ f = ReturnMain \/ f = PanicMain)).
  { intros evs0 c. destruct (IH r' c ltac:(lia)) as (tr & f & r'' & c' & -> & Hf).
    eexists _, _, _, _. split; [reflexivity | exact Hf]. }
  destruct (String.eqb b "\b"); [apply Hnext|].
  destruct (String.eqb b "\c"); [apply Hnext|].
  destruct (String.eqb b "\r"); [apply Hnext|].
  destruct e as [e|].
  - eexists _, _, _, _; split; [reflexivity | auto].
  - destruct (execBatch Conn QueryContext cfg b conn) as [[evs1 f] c1].
    destruct f; try apply Hnext; eexists _, _, _, _; split; try reflexivity; auto.
Qed.

(** A reader whose own events are no submissions. *)
Hypothesis reader_quiet :
  forall cv r be r' evs,
    ReadBatch cfg (terminator cfg) cv r = Some (be, r', evs) -> submitted evs = [].

Lemma main_body_submitted (r : R) (conn : Conn) evs f r' conn' :
  body r conn = Some (evs, f, r', conn') ->
  Forall (fun b => is_control b = false) (submitted evs).
Proof.
  unfold main_body.
  destruct (ReadBatch cfg (terminator cfg) (GetEnv conn) r) as [[[[b e] r1] evs0]|] eqn:Hr;
    [|discriminate].
  pose proof (reader_quiet _ _ _ _ _ Hr) as Hq.
  destruct (String.eqb b "\b") eqn:E1;
    [intros H; injection H as <- _ _ _;
     rewrite InteractiveMore.submitted_app, Hq; constructor|].
  destruct (String.eqb b "\c") eqn:E2;
    [intros H; injection H as <- _ _ _;
     rewrite InteractiveMore.submitted_app, Hq; constructor|].
  destruct (String.eqb b "\r") eqn:E3;
    [intros H; injection H as <- _ _ _;
     rewrite InteractiveMore.submitted_app, Hq; constructor|].
  destruct e as [e|].
  - intros H; injection H as <- _ _ _.
    rewrite InteractiveMore.submitted_app, Hq.
    destruct (error_eqb e io_EOF); constructor.
  - unfold execBatch. destruct (QueryContext conn b) as [[e | rows] c1].
    + intros H; injection H as <- _ _ _.
      rewrite InteractiveMore.submitted_app, Hq. simpl.
      replace (submitted match e with SybError _ => [] | _ => [Stdout (Error e +++ nl)] end)
        with (@nil string) by (destruct e; reflexivity).
      constructor; [|constructor].
      unfold is_control. now rewrite E1, E2, E3.
    + destruct (resultLoop cfg rows) as [evs1 f1] eqn:El.
      intros H; injection H as <- _ _ _.
      rewrite InteractiveMore.submitted_app, Hq. simpl.
      rewrite (submitted_resultLoop _ _ _ _ El).
      constructor; [|constructor].
      unfold is_control. now rewrite E1, E2, E3.
Qed.

Lemma main_loop_submitted : forall fuel r conn,
  Forall (fun b => is_control b = false) (submitted (fst (loop fuel r conn))).
Proof.
  induction fuel as [|fuel IH]; intros r conn; cbn [main_loop]; [constructor|].
  destruct (body r conn) as [[[[evs f] r'] conn']|] eqn:Hb; [|constructor].
  pose proof (main_body_submitted _ _ _ _ _ _ Hb) as H.
  specialize (IH r' conn').
  destruct (loop fuel r' conn') as [evs' res].
  destruct f; simpl; try assumption;
    rewrite InteractiveMore.submitted_app; apply Forall_app; split; assumption.
Qed.

End MainMore.

(** [main] ends on every script: within one turn of the loop per byte of
    the script plus one, it leaves the loop at the end of the input or on
    a read error, returns after a failed [NextResultSet], or panics;
    within one turn per line typed plus one for the interactive source. *)
Theorem main_loop_terminates (Conn : Type)
    (QueryContext : Conn -> string -> (error + Rows) * Conn)
    (Begin Commit Rollback : Conn -> Conn) (GetEnv : Conn -> connView)
    (cfg : config) (conn : Conn) :
  (forall r : File.fileBatchReader,
      exists tr f r' conn',
        main_loop Conn QueryContext Begin Commit Rollback GetEnv cfg
          (S (String.length (File.pending r))) r conn
        = (tr, Some (f, r', conn'))
        /\ (f = BreakInput \/ f = ReturnMain \/ f = PanicMain))
  /\ (forall r : Interactive.readLineBatchReader,
      exists tr f r' conn',
        main_loop Conn QueryContext Begin Commit Rollback GetEnv cfg
          (S (length (Interactive.input r))) r conn
        = (tr, Some (f, r', conn'))
        /\ (f = BreakInput \/ f = ReturnMain \/ f = PanicMain)).
Proof.
  split; intros r.
  - apply (main_loop_ends Conn QueryContext Begin Commit Rollback GetEnv cfg
             (fun r => String.length (File.pending r))); [| |lia].
    + intros cv r0. apply FileFacts.ReadBatch_returns.
    + intros cv r0 b e r' evs H. unfold ReadBatch, fileBatchReader_SQLBatchReader in H.
      apply FileMore.ReadBatch_loop_progress in H.
      destruct H as (_ & _ & [H | [-> H]]); auto.
  - apply (main_loop_ends Conn QueryContext Begin Commit Rollback GetEnv cfg
             (fun r => length (Interactive.input r))); [| |lia].
    + intros cv r0. eexists. reflexivity.
    + intros cv r0 b e r' evs H.
      unfold ReadBatch, readLineBatchReader_SQLBatchReader in H.
      injection H as H. apply InteractiveMore.ReadBatch_loop_ends in H.
      destruct H as (_ & _ & _ & [H | [-> ->]]); [auto|].
      right. split; [reflexivity | discriminate].
Qed.

(** Over a whole run, with either source, no batch ever submitted to the
    session is one of [\b], [\c], [\r]. *)
Theorem control_commands_never_submitted (Conn : Type)
    (QueryContext : Conn -> string -> (error + Rows) * Conn)
    (Begin Commit Rollback : Conn -> Conn) (GetEnv : Conn -> connView)
    (cfg : config) (fuel : nat) (conn : Conn) :
  (forall r : File.fileBatchReader,
      Forall (fun b => is_control b = false)
        (submitted (fst (main_loop Conn QueryContext Begin Commit Rollback GetEnv cfg
                           fuel r conn))))
  /\ (forall r : Interactive.readLineBatchReader,
      Forall (fun b => is_control b = false)
        (submitted (fst (main_loop Conn QueryContext Begin Commit Rollback GetEnv cfg
                           fuel r conn)))).
Proof.
  split; intros r; apply main_loop_submitted.
  - intros cv r0 be r' evs H. unfold ReadBatch, fileBatchReader_SQLBatchReader in H.
    eapply FileMore.ReadBatch_loop_quiet; eassumption.
  - intros cv r0 [b e] r' evs H.
    unfold ReadBatch, readLineBatchReader_SQLBatchReader in H.
    injection H as H. apply InteractiveMore.ReadBatch_loop_ends in H. tauto.
Qed.

(** ** Pages *)

Module RenderMore.

Import RenderFacts.

Lemma rendered_pages_app (a b : list event) :
  rendered_pages (a ++ b) = rendered_pages a ++ rendered_pages b.
Proof.
  induction a as [|e a IH]; [reflexivity|].
  destruct e; simpl; rewrite IH; reflexivity.
Qed.

Lemma rendered_pages_summary (a s : option Z) : rendered_pages (summary a s) = [].
Proof. destruct a, s; reflexivity. Qed.

(** The loop over the rows with a page size other than 0: it does not
    panic; the pages it renders carry the header [cols]; and the rows of
    these pages followed by the rows still in the table are the rows it
    started with followed by the rows fetched, formatted, in order. *)
Lemma rowLoop_rows (S : Z) (cols : list string) :
  S <> 0%Z ->
  forall rows r table evs t ok,
    rowLoop S cols rows r table = (evs, t, ok) ->
    ok = true
    /\ Forall (fun pg => fst pg = cols) (rendered_pages evs)
    /\ concat (map snd (rendered_pages evs)) ++ t = table ++ map (formatRow cols) rows.
Proof.
  intros HS. induction rows as [|vals rows IH]; intros r table evs t ok H; simpl in H.
  - injection H as <- <- <-. simpl. rewrite app_nil_r. auto.
  - destruct (Z.eqb_spec S 0) as [|_]; [contradiction|].
    destruct (Z.rem (int_add r 1) S =? 0)%Z.
    + destruct (rowLoop S cols rows (int_add r 1) []) as [[evs1 t1] ok1] eqn:E.
      injection H as <- <- <-. apply IH in E. destruct E as (-> & Hh & Hrows).
      simpl. split; [reflexivity|]. split; [constructor; [reflexivity | assumption]|].
      rewrite <- !app_assoc, Hrows. reflexivity.
    + apply IH in H. destruct H as (-> & Hh & Hrows).
      split; [reflexivity|]. split; [assumption|].
      rewrite Hrows, <- app_assoc. reflexivity.
Qed.

(** With a page size other than 0 and a non-empty column list, every row
    fetched is rendered exactly once, in the order of the fetch, cell by
    cell as [formatRow] makes it, and every table rendered carries the
    column list as its header. *)
Theorem renderResultSet_rows (cfg : config) (rs : resultSet) (cols : list string) :
  pageSize cfg <> 0%Z ->
  Columns rs = Some cols -> cols <> [] ->
  exists evs,
    renderResultSet cfg rs = Some (evs, true)
    /\ rendered_rows evs = map (formatRow cols) (rowData rs)
    /\ Forall (fun pg => fst pg = cols) (rendered_pages evs).
Proof.
  intros HS Hcols Hne. unfold renderResultSet. rewrite Hcols.
  destruct (rowLoop (pageSize cfg) cols (rowData rs) 0 []) as [[evs t] ok] eqn:E.
  apply (rowLoop_rows _ _ HS) in E. destruct E as (-> & Hh & Hrows).
  eexists. split; [reflexivity|].
  destruct cols as [|c cols]; [contradiction|]. cbn [length Nat.ltb Nat.leb andb].
  unfold rendered_rows.
  rewrite !rendered_pages_app, rendered_pages_summary. cbn [rendered_pages].
  rewrite app_nil_r, map_app, concat_app. simpl. rewrite app_nil_r.
  split; [exact Hrows|].
  apply Forall_app. split; [assumption | constructor; [reflexivity | constructor]].
Qed.

(** With a positive page size, every page rendered inside the loop over
    the rows is full, and what is left in the table is the remainder. *)
Lemma rowLoop_page_sizes (S : Z) (cols : list string) :
  (0 < S)%Z ->
  forall rows r table evs t ok,
    (0 <= r)%Z -> (r + Z.of_nat (length rows) < 2 ^ 63)%Z ->
    Z.of_nat (length table) = (r mod S)%Z ->
    rowLoop S cols rows r table = (evs, t, ok) ->
    Forall (fun pg => Z.of_nat (length (snd pg)) = S) (rendered_pages evs)
    /\ Z.of_nat (length t) = ((r + Z.of_nat (length rows)) mod S)%Z.
Proof.
  intros HS. induction rows as [|vals rows IH]; intros r table evs t ok Hr Hb Ht H.
  - simpl in H. injection H as <- <- <-. simpl. rewrite Z.add_0_r. auto.
  - cbn [rowLoop] in H. cbn [length] in Hb.
    unfold int_add in H. rewrite wrap64_small in H by lia.
    destruct (Z.eqb_spec S 0) as [|_]; [lia|].
    rewrite Z.rem_mod_nonneg in H by lia.
    replace (r + Z.of_nat (length (vals :: rows)))%Z
      with ((r + 1) + Z.of_nat (length rows))%Z by (cbn [length]; lia).
    assert (Hlen : Z.of_nat (length (table ++ [formatRow cols vals])) = (r mod S + 1)%Z).
    { rewrite length_app. simpl. lia. }
    pose proof (Z.mod_pos_bound r S HS) as Hrm.
    destruct (Z.eqb_spec ((r + 1) mod S) 0) as [Hm|Hm].
    + destruct (rowLoop S cols rows (r + 1) []) as [[evs1 t1] ok1] eqn:E.
      injection H as <- <- <-.
      apply IH in E; [| lia | lia | simpl; now rewrite Hm].
      destruct E as (Hpages & Hrest). split; [|exact Hrest].
      simpl. constructor; [|assumption]. simpl. rewrite Hlen.
      assert (Hq : ((r + 1) mod S = (r mod S + 1) mod S)%Z).
      { rewrite <- Z.add_mod_idemp_l by lia. reflexivity. }
      rewrite Hm in Hq.
      destruct (Z.eq_dec (r mod S + 1) S) as [|Hne]; [assumption|].
      rewrite Z.mod_small in Hq by lia. lia.
    + apply IH in H; [assumption | lia | lia |].
      rewrite Hlen.
      assert (Hq : ((r + 1) mod S = (r mod S + 1) mod S)%Z).
      { rewrite <- Z.add_mod_idemp_l by lia. reflexivity. }
      destruct (Z.eq_dec (r mod S + 1) S) as [He|Hne].
      * rewrite He, Z.mod_same in Hq by lia. contradiction.
      * rewrite (Z.mod_small (r mod S + 1) S) in Hq by lia. lia.
Qed.

(** With a positive page size [S] and a non-empty column list, the tables
    rendered for a result set of [R] rows are full pages of [S] rows
    followed by one last table with the [R mod S] rows that remain; that
    last table is rendered also when it holds no row. *)
Theorem renderResultSet_page_sizes (cfg : config) (rs : resultSet) (cols : list string) :
  (0 < pageSize cfg)%Z ->
  Columns rs = Some cols -> cols <> [] ->
  (Z.of_nat (length (rowData rs)) < 2 ^ 63)%Z ->
  exists evs full last,
    renderResultSet cfg rs = Some (evs, true)
    /\ rendered_pages evs = full ++ [last]
    /\ Forall (fun pg => Z.of_nat (length (snd pg)) = pageSize cfg) full
    /\ Z.of_nat (length (snd last))
       = (Z.of_nat (length (rowData rs)) mod pageSize cfg)%Z.
Proof.
  intros HS Hcols Hne Hb. unfold renderResultSet. rewrite Hcols.
  destruct (rowLoop (pageSize cfg) cols (rowData rs) 0 []) as [[evs t] ok] eqn:E.
  pose proof (rowLoop_rows (pageSize cfg) cols ltac:(lia) _ _ _ _ _ _ E) as (-> & _ & _).
  apply (rowLoop_page_sizes _ _ HS) in E; [| lia | lia | reflexivity].
  destruct E as (Hfull & Hlast).
  destruct cols as [|c cols]; [contradiction|]. cbn [length Nat.ltb Nat.leb andb].
  eexists _, (rendered_pages evs), (c :: cols, t).
  split; [reflexivity|].
  rewrite !rendered_pages_app, rendered_pages_summary. cbn [rendered_pages].
  rewrite app_nil_r. split; [reflexivity|]. split; [assumption|]. exact Hlast.
Qed.

(** With page size 0 the first row fetched makes [r % pageSize] panic
    (integer divide by zero) before anything is rendered or printed; a
    result set without rows is handled as with any other page size. *)
Theorem page_size_zero_panics (cfg : config) (rs : resultSet) (cols : list string) :
  pageSize cfg = 0%Z ->
  Columns rs = Some cols ->
  (rowData rs <> [] ->
     renderResultSet cfg rs = Some ([], false)
     /\ forall rows, current rows = rs -> resultLoop cfg rows = ([], PanicMain))
  /\ (rowData rs = [] ->
      renderResultSet cfg rs
      = Some ((if (0 <? length cols) then [Render cols []] else [])
              ++ summary (AffectedRows rs) (ReturnStatus rs) ++ [WFlush], true)).
Proof.
  intros HS Hcols. split.
  - intros Hne.
    assert (Hr : renderResultSet cfg rs = Some ([], false)).
    { unfold renderResultSet. rewrite Hcols, HS.
      destruct (rowData rs); [contradiction | reflexivity]. }
    split; [exact Hr|].
    intros rows Hcur. destruct rows; simpl in Hcur; subst; simpl; rewrite Hr; reflexivity.
  - intros Hnil. unfold renderResultSet. rewrite Hcols, Hnil. simpl.
    destruct (0 <? length cols); reflexivity.
Qed.

End RenderMore.

(** ** Cells *)

Module FormatMore.

Lemma trim_left_first (s : string) : first_is_space (trim_left s) = false.
Proof.
  induction s as [|c s IH]; [reflexivity|].
  simpl. destruct (is_space c) eqn:E; [assumption|]. simpl. exact E.
Qed.

Lemma trim_right_last (s : string) : last_is_space (trim_right s) = false.
Proof.
  induction s as [|c s IH]; [reflexivity|].
  simpl. destruct (trim_right s) as [|d t].
  - destruct (is_space c) eqn:E; [reflexivity|]. simpl. exact E.
  - exact IH.
Qed.

Lemma trim_right_first (s : string) :
  first_is_space s = false -> first_is_space (trim_right s) = false.
Proof.
  destruct s as [|c s]; [reflexivity|].
  simpl. intros E. destruct (trim_right s); [rewrite E|]; simpl; exact E.
Qed.

Lemma trim_left_id (s : string) : first_is_space s = false -> trim_left s = s.
Proof. destruct s as [|c s]; [reflexivity|]. simpl. now intros ->. Qed.

Lemma trim_right_id (s : string) : last_is_space s = false -> trim_right s = s.
Proof.
  induction s as [|c s IH]; [reflexivity|].
  intros H. cbn [trim_right]. destruct s as [|d s'].
  - simpl in *. now rewrite H.
  - rewrite IH by exact H. reflexivity.
Qed.

(** Whatever the value, the cell has no white space at either end. *)
Theorem formatValue_trimmed (v : driver_Value) :
  first_is_space (formatValue v) = false /\ last_is_space (formatValue v) = false.
Proof.
  unfold formatValue, TrimSpace. split.
  - apply trim_right_first, trim_left_first.
  - apply trim_right_last.
Qed.

Lemma hex_digit_not_space (n : nat) : n < 16 -> is_space (hex_digit n) = false.
Proof.
  intros H. do 16 (destruct n as [|n]; [reflexivity|]). lia.
Qed.

Lemma nat_of_ascii_bound (c : ascii) : nat_of_ascii c < 256.
Proof.
  destruct c as [[] [] [] [] [] [] [] []]; vm_compute; repeat constructor.
Qed.

Lemma hex_last (b : list ascii) : forall c,
  is_space c = false -> last_is_space (String c (hex_EncodeToString b)) = false.
Proof.
  induction b as [|x b IH]; intros c Hc; [exact Hc|].
  cbn [hex_EncodeToString].
  change (last_is_space (String c (String ?h1 (String ?h2 ?rest))))
    with (last_is_space (String h2 rest)).
  apply IH. apply hex_digit_not_space. apply Nat.mod_upper_bound. discriminate.
Qed.

Lemma hex_length (b : list ascii) :
  String.length (hex_EncodeToString b) = 2 * length b.
Proof. induction b as [|x b IH]; simpl; [reflexivity | rewrite IH; lia]. Qed.

(** A value of bytes becomes [0x] followed by two hexadecimal digits per
    byte, and nothing else: trimming takes nothing away. *)
Theorem formatValue_bytes (b : list ascii) :
  formatValue (VBytes b) = "0x" +++ hex_EncodeToString b
  /\ String.length (formatValue (VBytes b)) = 2 + 2 * length b.
Proof.
  assert (H : formatValue (VBytes b) = "0x" +++ hex_EncodeToString b).
  { unfold formatValue, TrimSpace.
    rewrite trim_left_id by reflexivity.
    apply trim_right_id. cbn [String.append].
    change (last_is_space (String "0" (String "x" ?rest)))
      with (last_is_space (String "x" rest)).
    apply hex_last. reflexivity. }
  split; [exact H|]. rewrite H. simpl. now rewrite hex_length.
Qed.

Lemma length_append (a b : string) :
  String.length (a +++ b) = String.length a + String.length b.
Proof. induction a as [|x a IH]; simpl; [reflexivity | now rewrite IH]. Qed.

Lemma pad_width_below (w bound : nat) :
  forallb (fun n => String.length (pad w (dec n)) =? w) (seq 0 bound) = true ->
  forall n, n < bound -> String.length (pad w (dec n)) = w.
Proof.
  intros H n Hn. rewrite forallb_forall in H.
  apply Nat.eqb_eq. apply H. apply in_seq. lia.
Qed.

Lemma pad_first_below (w bound : nat) :
  forallb (fun n => negb (first_is_space (pad w (dec n)))) (seq 0 bound) = true ->
  forall n, n < bound -> first_is_space (pad w (dec n)) = false.
Proof.
  intros H n Hn. rewrite forallb_forall in H.
  apply negb_true_iff. apply H. apply in_seq. lia.
Qed.

Lemma pad_last_below (w bound : nat) :
  forallb (fun n => negb (last_is_space (pad w (dec n)))) (seq 0 bound) = true ->
  forall n, n < bound -> last_is_space (pad w (dec n)) = false.
Proof.
  intros H n Hn. rewrite forallb_forall in H.
  apply negb_true_iff. apply H. apply in_seq. lia.
Qed.

Lemma pad4 (n : nat) : n < 10000 -> String.length (pad 4 (dec n)) = 4.
Proof. apply pad_width_below. vm_compute. reflexivity. Qed.

Lemma pad4_first (n : nat) : n < 10000 -> first_is_space (pad 4 (dec n)) = false.
Proof. apply pad_first_below. vm_compute. reflexivity. Qed.

Lemma pad2 (n : nat) : n < 100 -> String.length (pad 2 (dec n)) = 2.
Proof. apply pad_width_below. vm_compute. reflexivity. Qed.

Lemma pad2_last (n : nat) : n < 100 -> last_is_space (pad 2 (dec n)) = false.
Proof. apply pad_last_below. vm_compute. reflexivity. Qed.

(** A time with a year of at most four digits (and the other fields of at
    most two) is printed on 19 characters, [YYYY-MM-DD HH:MM:SS], and the
    cell is that text as it is. *)
Theorem formatValue_time_width (t : time_Time) :
  year t < 10000 -> month t < 100 -> day t < 100 ->
  hour t < 100 -> minute t < 100 -> second t < 100 ->
  formatValue (VTime t) = time_Format t
  /\ String.length (time_Format t) = 19
  /\ String.get 4 (time_Format t) = Some "-"%char
  /\ String.get 7 (time_Format t) = Some "-"%char
  /\ String.get 10 (time_Format t) = Some " "%char
  /\ String.get 13 (time_Format t) = Some ":"%char
  /\ String.get 16 (time_Format t) = Some ":"%char.
Proof.
  intros Hy Hmo Hd Hh Hmi Hs. unfold formatValue, TrimSpace, time_Format.
  pose proof (pad4 _ Hy) as Ly. pose proof (pad2 _ Hmo) as Lmo.
  pose proof (pad2 _ Hd) as Ld. pose proof (pad2 _ Hh) as Lh.
  pose proof (pad2 _ Hmi) as Lmi. pose proof (pad2 _ Hs) as Ls.
  pose proof (pad4_first _ Hy) as Fy. pose proof (pad2_last _ Hs) as Es.
  destruct (pad 4 (dec (year t))) as [|y1 [|y2 [|y3 [|y4 [|]]]]]; try discriminate Ly.
  destruct (pad 2 (dec (month t))) as [|m1 [|m2 [|]]]; try discriminate Lmo.
  destruct (pad 2 (dec (day t))) as [|d1 [|d2 [|]]]; try discriminate Ld.
  destruct (pad 2 (dec (hour t))) as [|h1 [|h2 [|]]]; try discriminate Lh.
  destruct (pad 2 (dec (minute t))) as [|i1 [|i2 [|]]]; try discriminate Lmi.
  destruct (pad 2 (dec (second t))) as [|s1 [|s2 [|]]]; try discriminate Ls.
  split; [|repeat split].
  rewrite trim_left_id by exact Fy. apply trim_right_id. exact Es.
Qed.

End FormatMore.

(** ** Stripping *)

(** Whatever the terminator, when [re] is anchored at the end of the text
    (as [(terminator)$] is), a batch that [processLine] finalizes is the
    buffer followed by a beginning of the line: stripping only ever
    removes an end of the line, also when the test matched elsewhere. *)
Theorem processLine_found_prefix (x : regex) (t line batch : string) :
  snd (processLine (Cat x Eol) t line batch) = true ->
  exists pre suf,
    line = pre +++ suf
    /\ fst (processLine (Cat x Eol) t line batch) = batch +++ pre.
Proof.
  intros Hf. rewrite (ProcessLine.processLine_found _ _ _ _ Hf).
  unfold ReplaceAllString_empty.
  rewrite RegexpFacts.replaceAll_end_anchored by apply RegexpFacts.Cat_Eol_end_anchored.
  set (l := list_ascii_of_string line).
  destruct (search (Cat x Eol) 0 l) as [[a0 a1]|].
  - exists (string_of_list_ascii (firstn a0 l)), (string_of_list_ascii (skipn a0 l)).
    split; [|reflexivity].
    rewrite <- string_of_list_ascii_app, firstn_skipn.
    symmetry. apply string_of_list_ascii_of_string.
  - exists line, "". split.
    + symmetry. apply FileMore.append_empty_r.
    + subst l. now rewrite string_of_list_ascii_of_string.
Qed.

(** ** The connection string *)

Module CnxFacts.

Import Cnx.

Lemma upperhex_escaped (n : nat) : n < 16 -> escaped_byte (upperhex n) = true.
Proof. intros H. do 16 (destruct n as [|n]; [reflexivity|]). lia. Qed.

(** [QueryEscape] writes unreserved bytes, [+] and [%] only. *)
Lemma QueryEscape_escaped (s : string) : all_chars escaped_byte (QueryEscape s) = true.
Proof.
  induction s as [|c s IH]; [reflexivity|].
  cbn [QueryEscape]. destruct (Ascii.eqb c " ").
  - cbn [all_chars]. rewrite IH. reflexivity.
  - destruct (unreserved c) eqn:E.
    + cbn [all_chars]. rewrite IH. unfold escaped_byte. rewrite E. reflexivity.
    + cbn [all_chars]. rewrite IH, !upperhex_escaped.
      * reflexivity.
      * apply Nat.mod_upper_bound. discriminate.
      * apply Nat.Div0.div_lt_upper_bound.
        pose proof (FormatMore.nat_of_ascii_bound c). lia.
Qed.

Lemma all_chars_weaken (p q : ascii -> bool) (s : string) :
  (forall c, p c = true -> q c = true) -> all_chars p s = true -> all_chars q s = true.
Proof.
  intros H. induction s as [|c s IH]; [reflexivity|].
  cbn [all_chars]. intros Hs. apply andb_true_iff in Hs. destruct Hs as [Hc Hs].
  rewrite (H _ Hc), (IH Hs). reflexivity.
Qed.

Lemma all_chars_app (p : ascii -> bool) (a b : string) :
  all_chars p (a +++ b) = all_chars p a && all_chars p b.
Proof.
  induction a as [|c a IH]; [reflexivity|].
  simpl. rewrite IH. now rewrite andb_assoc.
Qed.

Lemma index_of_after (c : ascii) (a b : string) :
  all_chars (fun x => negb (Ascii.eqb x c)) a = true ->
  index_of c (a +++ String c b) = Some (String.length a).
Proof.
  induction a as [|x a IH]; simpl.
  - now rewrite Ascii.eqb_refl.
  - intros H. apply andb_true_iff in H. destruct H as [Hx Ha].
    apply negb_true_iff in Hx. rewrite Hx, (IH Ha). reflexivity.
Qed.

Lemma escaped_not (c : ascii) :
  escaped_byte c = false ->
  forall x, escaped_byte x = true -> negb (Ascii.eqb x c) = true.
Proof.
  intros Hc x Hx. apply negb_true_iff. apply Ascii.eqb_neq. intros ->. congruence.
Qed.

Lemma userinfo_marks (U P R : string) :
  all_chars escaped_byte U = true -> all_chars escaped_byte P = true ->
  index_of ":" (U +++ ":" +++ P +++ "@" +++ R) = Some (String.length U)
  /\ index_of "@" (U +++ ":" +++ P +++ "@" +++ R)
     = Some (String.length U + 1 + String.length P).
Proof.
  intros HU HP. split.
  - apply index_of_after.
    eapply all_chars_weaken; [|exact HU]. apply escaped_not. reflexivity.
  - replace (U +++ ":" +++ P +++ "@" +++ R) with ((U +++ ":" +++ P) +++ String "@" R)
      by (rewrite !append_assoc; reflexivity).
    rewrite index_of_after.
    + rewrite !FormatMore.length_append. simpl. f_equal. lia.
    + rewrite !all_chars_app. cbn [all_chars].
      rewrite (all_chars_weaken escaped_byte _ _ (escaped_not "@" eq_refl) HU).
      rewrite (all_chars_weaken escaped_byte _ _ (escaped_not "@" eq_refl) HP).
      reflexivity.
Qed.

(** The user name and the password cannot move the marks of the
    connection string: after [tds://], the first [:] is the one written
    between them and the first [@] is the one written after the password,
    whatever bytes they hold; and the escaped user name, password and
    database are made of letters, digits and [-_.~+%] only. *)
Theorem buildCnxStr_userinfo (g : flags) :
  exists rest,
    buildCnxStr g
    = "tds://" +++ QueryEscape (userName g) +++ ":" +++ QueryEscape (password g)
      +++ "@" +++ rest
    /\ index_of ":" (QueryEscape (userName g) +++ ":" +++ QueryEscape (password g)
                     +++ "@" +++ rest)
       = Some (String.length (QueryEscape (userName g)))
    /\ index_of "@" (QueryEscape (userName g) +++ ":" +++ QueryEscape (password g)
                     +++ "@" +++ rest)
       = Some (String.length (QueryEscape (userName g)) + 1
               + String.length (QueryEscape (password g)))
    /\ all_chars escaped_byte (QueryEscape (userName g)) = true
    /\ all_chars escaped_byte (QueryEscape (password g)) = true
    /\ all_chars escaped_byte (QueryEscape (database g)) = true.
Proof.
  exists (server g +++ "/" +++ QueryEscape (database g) +++ "?" +++ Encode (cnxValues g)).
  split; [reflexivity|].
  pose proof (QueryEscape_escaped (userName g)) as HU.
  pose proof (QueryEscape_escaped (password g)) as HP.
  destruct (userinfo_marks _ _
              (server g +++ "/" +++ QueryEscape (database g) +++ "?"
               +++ Encode (cnxValues g)) HU HP) as [H1 H2].
  repeat split; try assumption. apply QueryEscape_escaped.
Qed.

(** The parameters of the connection string come in the order of their
    keys whatever the order in which they were set: [charset] when it is
    not empty, [hostname] always, [mode=chained] when [-Y] is given,
    [packetSize] when it is not 0, [readTimeout=10] always, [ssl=on] when
    [-x on] is given. *)
Theorem buildCnxStr_parameters (g : flags) :
  Encode (cnxValues g)
  = String.concat "&"
      ((if String.eqb (charset g) "" then []
        else ["charset=" +++ QueryEscape (charset g)])
       ++ ["hostname=" +++ QueryEscape (hostname g)]
       ++ (if chained g then ["mode=chained"] else [])
       ++ (if (packetSize g =? 0)%Z then []
           else ["packetSize=" +++ QueryEscape (fmt_d (packetSize g))])
       ++ ["readTimeout=10"]
       ++ (if String.eqb (ssl g) "on" then ["ssl=on"] else [])).
Proof.
  unfold Encode, cnxValues.
  destruct (chained g), (packetSize g =? 0)%Z, (String.eqb (ssl g) "on"),
    (String.eqb (charset g) ""); reflexivity.
Qed.

End CnxFacts.

(** ** The handler of the server's messages *)

Lemma TrimRight_nl_spec (s : string) :
  exists k, s = TrimRight_nl s +++ newlines k /\ ends_with_nl (TrimRight_nl s) = false.
Proof.
  induction s as [|c s (k & Hs & He)].
  - exists 0. split; reflexivity.
  - cbn [TrimRight_nl]. destruct (TrimRight_nl s) as [|d t] eqn:E.
    + destruct (Ascii.eqb_spec c (ascii_of_nat 10)) as [->|Hc].
      * exists (S k). split; [|reflexivity]. simpl in *. now rewrite <- Hs.
      * exists k. split.
        -- simpl in *. now rewrite <- Hs.
        -- simpl. now apply Ascii.eqb_neq.
    + exists k. split; [|exact He].
      change (String c (String d t) +++ newlines k)
        with (String c (String d t +++ newlines k)).
      now rewrite <- Hs.
Qed.

(** The handler fails the operation exactly for a severity above 10, and
    then prints the message as [fmt.Print] shows it; below 10 it prints
    nothing; and a message of severity 10 that is not one of showplan or
    statistics is printed without the newlines at its end, then one
    newline: its text, cut before its last newlines, on a line of its
    own. *)
Theorem errorHandler_output (Printf0 : string -> string) (m : SybMessage) :
  snd (errorHandler Printf0 m) = (10 <? Severity m)%Z
  /\ ((Severity m < 10)%Z -> fst (errorHandler Printf0 m) = [])
  /\ ((10 < Severity m)%Z -> fst (errorHandler Printf0 m) = [Stdout (shown m)])
  /\ (Severity m = 10%Z -> is_plan_message (MsgNumber m) = false ->
      exists body k,
        Message m = body +++ newlines k
        /\ ends_with_nl body = false
        /\ fst (errorHandler Printf0 m) = [Stdout (body +++ nl)]).
Proof.
  unfold errorHandler. cbn [fst snd]. split; [reflexivity|]. split; [|split].
  - intros H. destruct (Z.eqb_spec (Severity m) 10); [lia|].
    destruct (Z.ltb_spec 10 (Severity m)); [lia | reflexivity].
  - intros H. destruct (Z.eqb_spec (Severity m) 10); [lia|].
    destruct (Z.ltb_spec 10 (Severity m)); [reflexivity | lia].
  - intros H Hp. rewrite H, Hp. simpl.
    destruct (TrimRight_nl_spec (Message m)) as (k & Hk & He).
    exists (TrimRight_nl (Message m)), k. auto.
Qed.

(** ** More scenarios *)

Module MoreScenarios.

(** A script of two lines, the second one without its newline. *)
Lemma script_first_match_witness :
  File.ReadBatch semicolon_cfg ";" (File.mkReader ("select 1" +++ nl +++ "from t;") io_EOF)
  = Some (("select 1" +++ nl +++ "from t", None), File.mkReader "" io_EOF,
          [Stdout ("1> select 1" +++ nl)]).
Proof.
  apply (FileMore.script_first_match semicolon_cfg ";" io_EOF
           ("select 1" +++ nl +++ "from t;") ["select 1" +++ nl] "from t;" []).
  - reflexivity.
  - repeat constructor.
  - reflexivity.
  - right. reflexivity.
Defined.

(** The reading fails after [select 1], a newline, and [from]. *)
Lemma ReadBatch_read_error_witness :
  File.ReadBatch semicolon_cfg ";"
    (File.mkReader ("select 1" +++ nl +++ "from") (OtherError "read failed"))
  = Some (("select 1" +++ nl, Some (OtherError "read failed")),
          File.mkReader "" (OtherError "read failed"),
          [Stdout ("1> select 1" +++ nl)]).
Proof.
  apply (FileMore.ReadBatch_read_error semicolon_cfg ";" (OtherError "read failed")
           ("select 1" +++ nl +++ "from") ["select 1" +++ nl] ["from"]).
  - discriminate.
  - reflexivity.
  - right. exists "from". split; reflexivity.
  - repeat constructor. discriminate.
  - repeat constructor.
Defined.

(** The user types [select 1], then the input ends. *)
Lemma ReadBatch_error_or_saved_witness :
  Interactive.ReadBatch default_cfg ";|^go" (toy_env [])
    (Interactive.mkReader [("select 1", None)] "")
  = (("", Some io_EOF), Interactive.mkReader [] "SRV",
     [SelectValue "select @@servername"; SetPrompt "SRV.master 1 $ ";
      SetPrompt "SRV.master 2 $ "])
  /\ "" = "" /\ io_EOF <> ErrInterrupt
  /\ saved_history [SelectValue "select @@servername"; SetPrompt "SRV.master 1 $ ";
                    SetPrompt "SRV.master 2 $ "] = [].
Proof.
  split; [reflexivity|].
  exact (InteractiveMore.ReadBatch_error_or_saved default_cfg ";|^go" (toy_env [])
           (Interactive.mkReader [("select 1", None)] "")
           (Interactive.mkReader [] "SRV") "" (Some io_EOF)
           [SelectValue "select @@servername"; SetPrompt "SRV.master 1 $ ";
            SetPrompt "SRV.master 2 $ "] eq_refl).
Defined.

(** The user types [select 1], [from t;], and one more line. *)
Lemma typed_first_match_witness :
  Forall (fun l => MatchString (";" +++ "$") l = false) ["select 1"]
  /\ MatchString (";" +++ "$") "from t;" = true
  /\ exists evs sv',
      Interactive.ReadBatch semicolon_cfg ";" (toy_env [])
        (Interactive.mkReader (typed ["select 1"] ++ ("from t;", None) :: [("go", None)]) "")
      = ((joined "" ["select 1"] +++ ReplaceAllString_empty (re semicolon_cfg) "from t;",
          None),
         Interactive.mkReader [("go", None)] sv', evs).
Proof.
  assert (H : Forall (fun l => MatchString (";" +++ "$") l = false) ["select 1"])
    by (repeat constructor).
  split; [exact H|]. split; [reflexivity|].
  exact (InteractiveMore.typed_first_match semicolon_cfg ";" (toy_env [])
           ["select 1"] "from t;" [("go", None)] "" H eq_refl).
Defined.

(** A server whose name cannot be looked up, and two lines typed. *)
Lemma server_label_lookups_witness :
  Interactive.ReadBatch default_cfg ";|^go" (mkView "ASE" "master" "" None)
    (Interactive.mkReader [("select 1", None); ("go", None)] "")
  = (("select 1", None), Interactive.mkReader [] "",
     [SelectValue "select @@servername"; SetPrompt ".master 1 $ ";
      SelectValue "select @@servername"; SetPrompt ".master 2 $ ";
      SaveHistory "select 1"])
  /\ count_select [SelectValue "select @@servername"; SetPrompt ".master 1 $ ";
                   SelectValue "select @@servername"; SetPrompt ".master 2 $ ";
                   SaveHistory "select 1"]
     = count_prompt [SelectValue "select @@servername"; SetPrompt ".master 1 $ ";
                     SelectValue "select @@servername"; SetPrompt ".master 2 $ ";
                     SaveHistory "select 1"].
Proof.
  split; [reflexivity|].
  exact (proj1 (proj2 (proj2
           (InteractiveMore.server_label_lookups default_cfg ";|^go"
              (mkView "ASE" "master" "" None)
              (Interactive.mkReader [("select 1", None); ("go", None)] "")
              (Interactive.mkReader [] "") ("select 1", None)
              [SelectValue "select @@servername"; SetPrompt ".master 1 $ ";
               SelectValue "select @@servername"; SetPrompt ".master 2 $ ";
               SaveHistory "select 1"] eq_refl))
           eq_refl eq_refl (or_introl eq_refl))).
Defined.

(** Three rows with pages of two. *)
Lemma renderResultSet_rows_witness :
  exists evs,
    renderResultSet pages_of_two three_rows = Some (evs, true)
    /\ rendered_rows evs = map (formatRow ["x"]) (rowData three_rows)
    /\ Forall (fun pg => fst pg = ["x"]) (rendered_pages evs).
Proof.
  apply (RenderMore.renderResultSet_rows pages_of_two three_rows ["x"]);
    [discriminate | reflexivity | discriminate].
Defined.

Lemma renderResultSet_page_sizes_witness :
  exists evs full last,
    renderResultSet pages_of_two three_rows = Some (evs, true)
    /\ rendered_pages evs = full ++ [last]
    /\ Forall (fun pg => Z.of_nat (length (snd pg)) = pageSize pages_of_two) full
    /\ Z.of_nat (length (snd last))
       = (Z.of_nat (length (rowData three_rows)) mod pageSize pages_of_two)%Z.
Proof.
  apply (RenderMore.renderResultSet_page_sizes pages_of_two three_rows ["x"]);
    [reflexivity | reflexivity | discriminate | reflexivity].
Defined.

Lemma page_size_zero_panics_witness :
  renderResultSet (mkConfig ";|^go" default_re false 0) three_rows = Some ([], false)
  /\ resultLoop (mkConfig ";|^go" default_re false 0) (LastResultSet three_rows)
     = ([], PanicMain).
Proof.
  destruct (proj1 (RenderMore.page_size_zero_panics
                     (mkConfig ";|^go" default_re false 0) three_rows ["x"]
                     eq_refl eq_refl) ltac:(discriminate)) as [H1 H2].
  split; [exact H1 | exact (H2 (LastResultSet three_rows) eq_refl)].
Defined.

Lemma formatValue_time_width_witness :
  formatValue (VTime (mkTime 2024 3 7 9 5 0)) = "2024-03-07 09:05:00"
  /\ String.length (time_Format (mkTime 2024 3 7 9 5 0)) = 19.
Proof.
  split; [reflexivity|].
  refine (proj1 (proj2 (FormatMore.formatValue_time_width (mkTime 2024 3 7 9 5 0)
                          _ _ _ _ _ _)));
    apply Nat.ltb_lt; vm_compute; reflexivity.
Defined.

Lemma processLine_found_prefix_witness :
  snd (processLine (Cat (Group (Chr ";")) Eol) ";" "select 1;" "") = true
  /\ exists pre suf,
      "select 1;" = pre +++ suf
      /\ fst (processLine (Cat (Group (Chr ";")) Eol) ";" "select 1;" "") = "" +++ pre.
Proof.
  split; [reflexivity|].
  exact (processLine_found_prefix (Group (Chr ";")) ";" "select 1;" "" eq_refl).
Defined.

(** The message of a change of database, of severity 10. *)
Lemma errorHandler_output_witness :
  exists body k,
    ("Changed database context to 'master'." +++ nl) = body +++ newlines k
    /\ ends_with_nl body = false
    /\ fst (errorHandler (fun s => s)
              (mkMessage 10 5701 ("Changed database context to 'master'." +++ nl) ""))
       = [Stdout (body +++ nl)].
Proof.
  exact (proj2 (proj2 (proj2
           (errorHandler_output (fun s => s)
              (mkMessage 10 5701 ("Changed database context to 'master'." +++ nl) ""))))
           eq_refl eq_refl).
Defined.

End MoreScenarios.

(** ** The summary line of a result set *)

Module SummaryFacts.

Lemma w_lines_app (a b : list event) : w_lines (a ++ b) = w_lines a ++ w_lines b.
Proof.
  induction a as [|e a IH]; [reflexivity|].
  destruct e; simpl; rewrite IH; reflexivity.
Qed.

(** The line [summary] writes is the summary as it reads. *)
Lemma w_lines_summary (a s : option Z) : w_lines (summary a s) = summary_text a s.
Proof.
  destruct a as [n|], s as [st|]; unfold summary, summary_text, rows_text, status_text;
    cbn [w_lines]; try reflexivity.
  - destruct (1 <? n)%Z; rewrite !append_assoc; reflexivity.
  - destruct (1 <? n)%Z; reflexivity.
Qed.

(** The loop over the rows writes no line of its own. *)
Lemma w_lines_rowLoop (S : Z) (cols : list string) : forall rows r table evs t ok,
  rowLoop S cols rows r table = (evs, t, ok) -> w_lines evs = [].
Proof.
  induction rows as [|vals rows IH]; intros r table evs t ok H; simpl in H.
  - injection H as <- _ _. reflexivity.
  - destruct (S =? 0)%Z; [injection H as <- _ _; reflexivity|].
    destruct (Z.rem (int_add r 1) S =? 0)%Z.
    + destruct (rowLoop S cols rows (int_add r 1) []) as [[evs1 t1] ok1] eqn:E.
      injection H as <- _ _. simpl. eapply IH; eassumption.
    + eapply IH; eassumption.
Qed.

Lemma rowLoop_ok (S : Z) (cols : list string) (rows : list (list driver_Value)) :
  S <> 0%Z \/ rows = [] ->
  forall evs t ok, rowLoop S cols rows 0 [] = (evs, t, ok) -> ok = true.
Proof.
  intros [HS | ->] evs t ok H.
  - now apply (RenderMore.rowLoop_rows S cols HS) in H.
  - simpl in H. now injection H as _ _ <-.
Qed.

(** One result set that reaches its summary. *)
Lemma renderResultSet_summary (cfg : config) (rs : resultSet) :
  summarized cfg rs ->
  exists evs,
    renderResultSet cfg rs = Some (evs, true)
    /\ w_lines evs = summary_text (AffectedRows rs) (ReturnStatus rs).
Proof.
  intros [Hcols Hok]. unfold renderResultSet.
  destruct (Columns rs) as [cols|]; [|contradiction].
  destruct (rowLoop (pageSize cfg) cols (rowData rs) 0 []) as [[evs t] ok] eqn:E.
  pose proof (rowLoop_ok _ cols _ Hok _ _ _ E) as ->.
  apply w_lines_rowLoop in E.
  eexists. split; [reflexivity|].
  rewrite !w_lines_app, E, w_lines_summary.
  destruct ((0 <? length cols) && (0 <? length cols)); simpl; now rewrite app_nil_r.
Qed.

(** C5, as the code has it.  For every result set that reaches its
    summary (its column list is not nil, and the loop over its rows does
    not panic on page size 0), what is written to [w] besides the tables
    is the summary: no line when neither the count of rows affected nor
    the return status is reported; else one line between parentheses, with
    [<n> rows affected] for a count of 2 or more and [<n> row affected]
    for any smaller count, so for 0 as for 1, and with the return status
    after a comma on the same line when both are reported.  The same
    holds along the result sets of a submission, one summary per result
    set, in order.  A result set whose column list is nil gets no summary
    at all: nothing is printed and the loop goes to the next batch; and
    the panic on page size 0 comes before any line is written. *)
Theorem summary_line_of_result_set (cfg : config) :
  (forall rs, summarized cfg rs ->
     exists evs,
       renderResultSet cfg rs = Some (evs, true)
       /\ w_lines evs = summary_text (AffectedRows rs) (ReturnStatus rs))
  /\ (forall rows, Forall (summarized cfg) (result_sets rows) ->
      w_lines (fst (resultLoop cfg rows))
      = concat (map (fun rs => summary_text (AffectedRows rs) (ReturnStatus rs))
                  (result_sets rows)))
  /\ (forall rows, Columns (current rows) = None ->
      resultLoop cfg rows = ([], ContinueInput))
  /\ (forall rows cols, Columns (current rows) = Some cols ->
      pageSize cfg = 0%Z -> rowData (current rows) <> [] ->
      resultLoop cfg rows = ([], PanicMain))
  /\ summary_text None None = []
  /\ summary_text (Some 0%Z) None = ["(0 row affected)" +++ nl]
  /\ summary_text (Some 1%Z) None = ["(1 row affected)" +++ nl]
  /\ summary_text (Some 2%Z) None = ["(2 rows affected)" +++ nl]
  /\ summary_text None (Some 0%Z) = ["(return status = 0)" +++ nl]
  /\ summary_text (Some 3%Z) (Some 0%Z) = ["(3 rows affected, return status = 0)" +++ nl]
  /\ (forall n, (2 <= n)%Z ->
      summary_text (Some n) None = ["(" +++ fmt_d n +++ " rows affected" +++ ")" +++ nl])
  /\ (forall n, (n < 2)%Z ->
      summary_text (Some n) None = ["(" +++ fmt_d n +++ " row affected" +++ ")" +++ nl]).
Proof.
  split; [exact (renderResultSet_summary cfg)|].
  split; [|split; [|split]].
  - induction rows as [rs | rs e | rs rest IH]; intros Hall;
      inversion Hall as [|? ? Hrs Hrest]; subst;
      destruct (renderResultSet_summary cfg rs Hrs) as (evs & Hr & Hw);
      cbn [resultLoop current result_sets map concat]; rewrite Hr.
    + cbn [fst]. now rewrite Hw, app_nil_r.
    + cbn [fst]. now rewrite Hw, app_nil_r.
    + specialize (IH Hrest).
      destruct (resultLoop cfg rest) as [evs' f]. cbn [fst] in *.
      rewrite w_lines_app. cbn [w_lines]. now rewrite Hw, IH.
  - intros rows Hnil.
    assert (Hr : renderResultSet cfg (current rows) = None)
      by (unfold renderResultSet; now rewrite Hnil).
    destruct rows; cbn [current] in Hr; cbn [resultLoop current]; now rewrite Hr.
  - intros rows cols Hcols HS Hne.
    assert (Hr : renderResultSet cfg (current rows) = Some ([], false)).
    { unfold renderResultSet. rewrite Hcols, HS.
      destruct (rowData (current rows)); [contradiction | reflexivity]. }
    destruct rows; cbn [current] in Hr; cbn [resultLoop current]; now rewrite Hr.
  - repeat split; try reflexivity; intros n Hn; unfold summary_text, rows_text.
    + destruct (Z.ltb_spec 1 n); [|lia]. now rewrite !append_assoc.
    + destruct (Z.ltb_spec 1 n); [lia|]. now rewrite !append_assoc.
Qed.

(** A batch with two result sets: an update of no row, then a procedure
    that reports 3 rows and the status 0. *)
Lemma summary_line_of_result_set_witness :
  Forall (summarized default_cfg)
    (result_sets
       (NextResultSetOk (mkResultSet (Some []) [] (Some 0%Z) None)
          (LastResultSet (mkResultSet (Some ["x"]) [[VOther "1"]] (Some 3%Z) (Some 0%Z)))))
  /\ w_lines
       (fst (resultLoop default_cfg
               (NextResultSetOk (mkResultSet (Some []) [] (Some 0%Z) None)
                  (LastResultSet
                     (mkResultSet (Some ["x"]) [[VOther "1"]] (Some 3%Z) (Some 0%Z))))))
     = ["(0 row affected)" +++ nl; "(3 rows affected, return status = 0)" +++ nl].
Proof.
  assert (H : Forall (summarized default_cfg)
                (result_sets
                   (NextResultSetOk (mkResultSet (Some []) [] (Some 0%Z) None)
                      (LastResultSet
                         (mkResultSet (Some ["x"]) [[VOther "1"]] (Some 3%Z) (Some 0%Z)))))).
  { repeat constructor; try discriminate. }
  split; [exact H|].
  exact (eq_trans (proj1 (proj2 (summary_line_of_result_set default_cfg)) _ H) eq_refl).
Defined.

(** C5 as stated fails at 0: for an update that affected no row the
    handling of the result set writes [(0 row affected)], the singular,
    and not [(0 rows affected)]. *)
Lemma zero_rows_affected_singular :
  resultLoop default_cfg (LastResultSet (mkResultSet (Some []) [] (Some 0%Z) None))
  = ([WOut ("(0 row affected)" +++ nl); WFlush], EndOfBody)
  /\ ~ In ("(0 rows affected)" +++ nl)
         (w_lines (fst (resultLoop default_cfg
                          (LastResultSet (mkResultSet (Some []) [] (Some 0%Z) None))))).
Proof.
  split; [reflexivity|].
  intros H. vm_compute in H. destruct H as [H | []]. discriminate H.
Qed.

End SummaryFacts.

(** ** An interrupt while a batch is typed *)

Module InterruptFacts.

Import Interactive InteractiveFacts.

Lemma prompt_events_S (cv : connView) (sv : string) (lineNo : Z) (n : nat) :
  prompt_events cv sv lineNo (S n)
  = let '(sv1, prompt, evs) := prompt_of cv sv lineNo in
    (evs ++ [SetPrompt prompt] ++ fst (prompt_events cv sv1 (int_add lineNo 1) n),
     snd (prompt_events cv sv1 (int_add lineNo 1) n)).
Proof.
  cbn [prompt_events]. destruct (prompt_of cv sv lineNo) as [[sv1 p] evs].
  destruct (prompt_events cv sv1 (int_add lineNo 1) n). reflexivity.
Qed.

(** Lines without the terminator, then an interrupt: the prompts go on
    with the next line numbers, and after the interrupt the loop is in its
    first state again, the buffer empty and the line counter at 1. *)
Lemma ReadBatch_loop_to_interrupt (cfg : config) (t : string) (cv : connView)
    (l : string) (tail : list (string * option error)) :
  forall pre sv batch0 lineNo,
    Forall (fun x => MatchString (t +++ "$") x = false) pre ->
    ReadBatch_loop cfg t cv (typed pre ++ (l, Some ErrInterrupt) :: tail) sv batch0 lineNo
    = emit (fst (prompt_events cv sv lineNo (S (length pre))))
        (ReadBatch_loop cfg t cv tail
           (snd (prompt_events cv sv lineNo (S (length pre)))) "" 1%Z).
Proof.
  induction pre as [|x pre IH]; intros sv batch0 lineNo Hall.
  - cbn [typed map app ReadBatch_loop length prompt_events].
    destruct (prompt_of cv sv lineNo) as [[sv1 p] evs]. cbn [fst snd].
    reflexivity.
  - inversion Hall as [|? ? Hx Hrest]; subst.
    change (typed (x :: pre) ++ (l, Some ErrInterrupt) :: tail)
      with ((x, @None error) :: (typed pre ++ (l, Some ErrInterrupt) :: tail)).
    cbn [ReadBatch_loop]. cbn [length]. rewrite (prompt_events_S cv sv lineNo).
    destruct (prompt_of cv sv lineNo) as [[sv1 p] evs].
    unfold processLine at 1. rewrite Hx. cbn [negb].
    destruct (String.eqb batch0 ""); rewrite IH by assumption;
      destruct (prompt_events cv sv1 (int_add lineNo 1) (S (length pre))) as [more sv2];
      cbn [fst snd]; rewrite emit_emit, <- !app_assoc; reflexivity.
Qed.

(** Lines without the terminator, then a line with it: the call returns
    the batch of these lines, saved to the history, after one prompt per
    line. *)
Lemma ReadBatch_loop_to_match (cfg : config) (t : string) (cv : connView)
    (line : string) (rest : list (string * option error)) :
  MatchString (t +++ "$") line = true ->
  forall post sv batch0 lineNo,
    Forall (fun x => MatchString (t +++ "$") x = false) post ->
    ReadBatch_loop cfg t cv (typed post ++ (line, None) :: rest) sv batch0 lineNo
    = ((joined batch0 post +++ ReplaceAllString_empty (re cfg) line, None),
       mkReader rest (snd (prompt_events cv sv lineNo (S (length post)))),
       fst (prompt_events cv sv lineNo (S (length post)))
       ++ [SaveHistory (joined batch0 post +++ ReplaceAllString_empty (re cfg) line)]).
Proof.
  intros Hm. induction post as [|x post IH]; intros sv batch0 lineNo Hall.
  - cbn [typed map app ReadBatch_loop length prompt_events].
    destruct (prompt_of cv sv lineNo) as [[sv1 p] evs]. cbn [fst snd].
    unfold processLine. rewrite Hm. cbn [negb joined fold_left].
    reflexivity.
  - inversion Hall as [|? ? Hx Hrest]; subst.
    change (typed (x :: post) ++ (line, None) :: rest)
      with ((x, @None error) :: (typed post ++ (line, None) :: rest)).
    cbn [ReadBatch_loop]. cbn [length]. rewrite (prompt_events_S cv sv lineNo).
    destruct (prompt_of cv sv lineNo) as [[sv1 p] evs].
    unfold processLine at 1. rewrite Hx. cbn [negb].
    destruct (String.eqb batch0 "") eqn:Eb; rewrite IH by assumption;
      destruct (prompt_events cv sv1 (int_add lineNo 1) (S (length post))) as [more sv2];
      cbn [fst snd emit joined fold_left]; rewrite Eb, <- !app_assoc; reflexivity.
Qed.

(** C8.  The user types the lines [pre], none of which ends the batch,
    and interrupts; then types the lines [post], none of which ends the
    batch, and a line on which the terminator matches.  The one call of
    [ReadBatch] does not return at the interrupt: it goes on prompting,
    the prompts numbered from 1 again after the interrupt, and returns,
    with a nil error, the batch made of the lines [post] and of the last
    line stripped, with nothing of [pre] in it; that batch is what is
    saved to the history, and the input typed after it is left for the
    next call. *)
Theorem interrupt_restarts_batch (cfg : config) (t : string) (cv : connView)
    (pre post : list string) (l line : string) (rest : list (string * option error))
    (sv : string) :
  Forall (fun x => MatchString (t +++ "$") x = false) pre ->
  Forall (fun x => MatchString (t +++ "$") x = false) post ->
  MatchString (t +++ "$") line = true ->
  ReadBatch cfg t cv
    (mkReader (typed pre ++ (l, Some ErrInterrupt) :: typed post ++ (line, None) :: rest) sv)
  = let '(before, sv1) := prompt_events cv sv 1%Z (S (length pre)) in
    let '(after, sv2) := prompt_events cv sv1 1%Z (S (length post)) in
    let batch := joined "" post +++ ReplaceAllString_empty (re cfg) line in
    ((batch, None), mkReader rest sv2, before ++ after ++ [SaveHistory batch]).
Proof.
  intros Hpre Hpost Hm. unfold ReadBatch. cbn [input server].
  rewrite ReadBatch_loop_to_interrupt by assumption.
  rewrite ReadBatch_loop_to_match by assumption.
  destruct (prompt_events cv sv 1 (S (length pre))) as [before sv1]. cbn [fst snd].
  destruct (prompt_events cv sv1 1 (S (length post))) as [after sv2]. reflexivity.
Qed.

(** The user types [select 1], interrupts, then types [select 2] and
    [from t;]. *)
Lemma interrupt_restarts_batch_witness :
  Forall (fun x => MatchString (";" +++ "$") x = false) ["select 1"]
  /\ Forall (fun x => MatchString (";" +++ "$") x = false) ["select 2"]
  /\ MatchString (";" +++ "$") "from t;" = true
  /\ Interactive.ReadBatch semicolon_cfg ";" (toy_env [])
       (Interactive.mkReader
          (typed ["select 1"] ++ ("", Some ErrInterrupt)
             :: typed ["select 2"] ++ ("from t;", None) :: [("go", None)]) "")
     = (("select 2from t", None), Interactive.mkReader [("go", None)] "SRV",
        [SelectValue "select @@servername"; SetPrompt "SRV.master 1 $ ";
         SetPrompt "SRV.master 2 $ "; SetPrompt "SRV.master 1 $ ";
         SetPrompt "SRV.master 2 $ "; SaveHistory "select 2from t"]).
Proof.
  assert (H1 : Forall (fun x => MatchString (";" +++ "$") x = false) ["select 1"])
    by (repeat constructor).
  assert (H2 : Forall (fun x => MatchString (";" +++ "$") x = false) ["select 2"])
    by (repeat constructor).
  split; [exact H1|]. split; [exact H2|]. split; [reflexivity|].
  exact (interrupt_restarts_batch semicolon_cfg ";" (toy_env [])
           ["select 1"] ["select 2"] "" "from t;" [("go", None)] "" H1 H2 eq_refl).
Defined.

End InterruptFacts.
